(** * slog: rotation policy, backup scanning, compression and record data

    A shallow embedding of the parts of [gookit/slog] that decide the
    rotation deadline ([rotatefile/config.go]), that order, enumerate and
    compress backup files ([compressFile], [findFilesInDir] and
    [modTimeFInfos] of package [rotatefile]), and that add context values
    to a log record ([record.go]).

    The Go standard library ([time], [os], [io], [sort],
    [compress/flate], [compress/gzip]) and [gookit/goutil] ([timex],
    [fsutil]) are not part of the repository; the modules of these
    names below state the behaviour of the few functions the code
    calls. *)

From Stdlib Require Import ZArith Lia List Bool String Ascii.
From stdpp Require Import gmap strings list fin_maps.
Import ListNotations.

Local Open Scope Z_scope.

(** ** Machine integers *)

(** Two's-complement reduction of an exact result to [int64]. *)
Definition wrap64 (z : Z) : Z := (z + 2 ^ 63) mod 2 ^ 64 - 2 ^ 63.

Definition maxInt64 : Z := 2 ^ 63 - 1.
Definition minInt64 : Z := - 2 ^ 63.

(** ** Go package [time] *)

Module time.

(** [type Duration int64], a count of nanoseconds. *)
Definition Nanosecond : Z := 1.
Definition Second : Z := 1000000000 * Nanosecond.
Definition Minute : Z := 60 * Second.
Definition Hour : Z := 60 * Minute.

(** [lessThanHalf] of the Go source: [x + x < y] for positive [x], [y]. *)
Definition lessThanHalf (x y : Z) : bool := x + x <? y.

(** [func (d Duration) Round(m Duration) Duration]: nearest multiple of
    [m], halfway values away from zero; [%] is Go's truncated remainder. *)
Definition Duration_Round (d m : Z) : Z :=
  if m <=? 0 then d
  else
    let r := Z.rem d m in
    if d <? 0 then
      let r := - r in
      if lessThanHalf r m then d + r
      else
        let d1 := wrap64 (d - m + r) in
        if d1 <? d then d1 else minInt64
    else
      if lessThanHalf r m then d - r
      else
        let d1 := wrap64 (d + m - r) in
        if d <? d1 then d1 else maxInt64.

(** An instant with nanosecond precision, and the location it is shown
    in.  The instant is the count of nanoseconds since the Unix epoch
    (Go keeps seconds and a nanosecond part in [0, 1e9): the quotient
    and remainder of [unixNano] by [Second]).  A location is a fixed
    offset in seconds east of UTC, as [time.UTC] and [time.FixedZone];
    a location whose offset changes in the course of the year
    (daylight-saving time) is not among them. *)
Record Time : Type := mkTime { unixNano : Z; zoneOffset : Z }.

(** [func Unix(sec, nsec int64) Time] (in UTC here). *)
Definition Unix (sec nsec : Z) : Time := mkTime (sec * Second + nsec) 0.

(** [func (t Time) Unix() int64]: whole seconds since the epoch. *)
Definition Time_Unix (t : Time) : Z := unixNano t / Second.

(** [func (t Time) Nanosecond() int]. *)
Definition Time_Nanosecond (t : Time) : Z := unixNano t mod Second.

(** [func (t Time) Add(d Duration) Time]. *)
Definition Time_Add (t : Time) (d : Z) : Time :=
  mkTime (unixNano t + d) (zoneOffset t).

(** [func (t Time) After(u Time) bool]. *)
Definition Time_After (t u : Time) : bool := unixNano u <? unixNano t.

(** [func (t Time) Before(u Time) bool]. *)
Definition Time_Before (t u : Time) : bool := unixNano t <? unixNano u.

(** [func (t Time) Location() *Location]. *)
Definition Time_Location (t : Time) : Z := zoneOffset t.

(** Seconds on the wall clock of [t]'s location. *)
Definition localSec (t : Time) : Z := Time_Unix t + zoneOffset t.

(** [func (t Time) Date() (year, month, day)].  The calendar date is
    carried as the number of the civil day (days since 1970-01-01 in
    the location): year, month and day are in one-to-one
    correspondence with it, and the code only passes them back to
    [Date]. *)
Definition Time_Date (t : Time) : Z := localSec t / 86400.

(** [func (t Time) Hour() int], [Minute() int], [Second() int]. *)
Definition Time_Hour (t : Time) : Z := (localSec t mod 86400) / 3600.
Definition Time_Minute (t : Time) : Z := (localSec t mod 3600) / 60.
Definition Time_Second (t : Time) : Z := localSec t mod 60.

(** [func Date(year, month, day, hour, min, sec, nsec, loc) Time]. *)
Definition Date (day hour min sec nsec : Z) (loc : Z) : Time :=
  mkTime ((day * 86400 + hour * 3600 + min * 60 + sec - loc) * Second + nsec)
         loc.

(** *** Layouts

    [Time.Format] reads a layout as a sequence of reference-time
    fields and literal bytes ([nextStdChunk] in the Go source).  The
    cases below are those for the bytes ['0'] to ['9'] and ['_']; every
    other byte is kept as a literal here. *)
Inductive std : Type :=
| stdLongYear       (* 2006 *)
| stdYear           (* 06 *)
| stdNumMonth       (* 1 *)
| stdZeroMonth      (* 01 *)
| stdDay            (* 2 *)
| stdUnderDay       (* _2 *)
| stdZeroDay        (* 02 *)
| stdUnderYearDay   (* __2 *)
| stdZeroYearDay    (* 002 *)
| stdHour           (* 15 *)
| stdHour12         (* 3 *)
| stdZeroHour12     (* 03 *)
| stdMinute         (* 4 *)
| stdZeroMinute     (* 04 *)
| stdSecond         (* 5 *)
| stdZeroSecond     (* 05 *).

Inductive chunk : Type :=
| Lit (c : ascii)
| Std (f : std).

(** [std0x]: the fields for "01" to "06". *)
Definition std0x (c : ascii) : option std :=
  if Ascii.eqb c "1" then Some stdZeroMonth
  else if Ascii.eqb c "2" then Some stdZeroDay
  else if Ascii.eqb c "3" then Some stdZeroHour12
  else if Ascii.eqb c "4" then Some stdZeroMinute
  else if Ascii.eqb c "5" then Some stdZeroSecond
  else if Ascii.eqb c "6" then Some stdYear
  else None.

(** The field that starts at the head of [c :: rest], with the number
    of further bytes it takes; [None] when the byte is a literal. *)
Definition stdAt (c : ascii) (rest : string) : option (std * nat) :=
  if Ascii.eqb c "0" then
    match rest with
    | String c1 rest1 =>
        match std0x c1 with
        | Some f => Some (f, 1%nat)
        | None =>
            match rest1 with
            | String c2 _ =>
                if Ascii.eqb c1 "0" && Ascii.eqb c2 "2"
                then Some (stdZeroYearDay, 2%nat) else None
            | EmptyString => None
            end
        end
    | EmptyString => None
    end
  else if Ascii.eqb c "1" then
    match rest with
    | String "5" _ => Some (stdHour, 1%nat)
    | _ => Some (stdNumMonth, 0%nat)
    end
  else if Ascii.eqb c "2" then
    match rest with
    | String "0" (String "0" (String "6" _)) => Some (stdLongYear, 3%nat)
    | _ => Some (stdDay, 0%nat)
    end
  else if Ascii.eqb c "_" then
    match rest with
    | String "2" (String "0" (String "0" (String "6" _))) => None
    | String "2" _ => Some (stdUnderDay, 1%nat)
    | String "_" (String "2" _) => Some (stdUnderYearDay, 2%nat)
    | _ => None
    end
  else if Ascii.eqb c "3" then Some (stdHour12, 0%nat)
  else if Ascii.eqb c "4" then Some (stdMinute, 0%nat)
  else if Ascii.eqb c "5" then Some (stdSecond, 0%nat)
  else None.

(** The chunks of a layout, left to right; [skip] counts the bytes
    already taken by the field found last. *)
Fixpoint chunksFrom (skip : nat) (layout : string) : list chunk :=
  match layout with
  | EmptyString => []
  | String c rest =>
      match skip with
      | S k => chunksFrom k rest
      | O =>
          match stdAt c rest with
          | Some (f, n) => Std f :: chunksFrom n rest
          | None => Lit c :: chunksFrom O rest
          end
      end
  end.

Definition chunks (layout : string) : list chunk := chunksFrom O layout.

(** The reference-time fields a layout prints, in order. *)
Definition fields (layout : string) : list std :=
  omap (fun ch => match ch with Std f => Some f | Lit _ => None end)
       (chunks layout).

End time.

(** ** Package [gookit/goutil/timex] *)

Module timex.
Import time.

Definition OneMinSec : Z := 60.
Definition OneHourSec : Z := 3600.
Definition OneDaySec : Z := 86400.
Definition OneHour : Z := time.Hour.

(** [DayStart]: [time.Date(y, m, d, 0, 0, 0, 0, t.Location())]. *)
Definition DayStart (t : Time) : Time :=
  Date (Time_Date t) 0 0 0 0 (Time_Location t).

(** [DayEnd]:
    [time.Date(y, m, d, 23, 59, 59, int(time.Second-time.Nanosecond), t.Location())]. *)
Definition DayEnd (t : Time) : Time :=
  Date (Time_Date t) 23 59 59 (time.Second - time.Nanosecond)
       (Time_Location t).

(** [HourStart]: [time.Date(y, m, d, t.Hour(), 0, 0, 0, t.Location())]. *)
Definition HourStart (t : Time) : Time :=
  Date (Time_Date t) (Time_Hour t) 0 0 0 (Time_Location t).

End timex.

(** ** Go [error] values *)

(** The error values that reach the code: system call failures, the one
    error of [compress/gzip]'s writer, and whatever a callback returns.
    A Go [error] is an [option error]; [None] is [nil]. *)
Inductive error : Type :=
| ENOENT                       (* no such file or directory *)
| EACCES                       (* permission denied *)
| EISDIR                       (* is a directory *)
| EBADF                        (* bad file descriptor *)
| ENOSPC                       (* no space left on device *)
| ErrHeaderString              (* gzip.Write: non-Latin-1 header string *)
| ErrOther (msg : string).

Inductive result (A : Type) : Type :=
| Ok (a : A)
| Err (e : error).
Arguments Ok {A} a.
Arguments Err {A} e.

(** ** Bytes and strings *)

(** A byte is an integer in [0, 256); a Go string is its bytes. *)
Definition byteOfAscii (c : ascii) : Z := Z.of_N (N_of_ascii c).
Definition asciiOfByte (b : Z) : ascii := ascii_of_N (Z.to_N b).

Definition bytesOfString (s : string) : list Z :=
  map byteOfAscii (list_ascii_of_string s).
Definition stringOfBytes (bs : list Z) : string :=
  string_of_list_ascii (map asciiOfByte bs).

(** ** Go package [os]: the file system *)

Module os.
Import time.

(** [os.FileInfo] as the code reads it. *)
Record FileInfo : Type := mkFileInfo {
  Name : string;
  Size : Z;
  ModTime : Time;
  IsDir : bool
}.

Record file : Type := mkFile {
  f_data : list Z;
  f_modTime : Time;
  f_readable : bool;
  f_writable : bool
}.

(** A directory keeps the entries [Readdir] lists, in directory order. *)
Record dir : Type := mkDir {
  d_entries : list FileInfo;
  d_modTime : Time;
  d_readable : bool
}.

Inductive node : Type :=
| NFile (f : file)
| NDir (d : dir).

(** The world outside the process: the files and directories, each
    under the path it is kept by; the other names that lead to one of
    them (another spelling of its path such as one with [./] or [//],
    a hard link, a symbolic link), each with the path it leads to; the
    clock that stamps writes; and the bytes the device can still
    take. *)
Record world : Type := mkWorld {
  files : gmap string node;
  links : gmap string string;
  clock : Time;
  free : nat
}.

(** The path a name leads to: the name itself unless it is a link. *)
Definition resolve (w : world) (name : string) : string :=
  default name (links w !! name).

(** What a name names, if anything. *)
Definition nodeAt (w : world) (name : string) : option node :=
  files w !! resolve w name.

(** Two names of one file. *)
Definition sameFile (w : world) (name1 name2 : string) : Prop :=
  resolve w name1 = resolve w name2.

(** An open [*os.File]: the name it was opened by and the path of the
    file it is bound to.  The read offset is kept by the reading
    loop. *)
Record File : Type := mkHandle {
  fd_name : string;
  fd_path : string
}.

(** [basename] of the Go source: trailing slashes removed, then the
    leading directory name.  Both loops run from the end of the name,
    so the bytes are walked in reverse. *)
Fixpoint stripSlashes (r : list ascii) : list ascii :=
  match r with
  | [] => []
  | c :: r' =>
      match r' with
      | [] => r
      | _ :: _ => if Ascii.eqb c "/" then stripSlashes r' else r
      end
  end.

Fixpoint untilSlash (r : list ascii) : list ascii :=
  match r with
  | [] => []
  | c :: r' => if Ascii.eqb c "/" then [] else c :: untilSlash r'
  end.

Definition basename (name : string) : string :=
  match stripSlashes (rev (list_ascii_of_string name)) with
  | [] => EmptyString
  | c :: r => string_of_list_ascii (rev (c :: untilSlash r))
  end.

Definition infoOf (name : string) (n : node) : FileInfo :=
  match n with
  | NFile f =>
      mkFileInfo (basename name) (Z.of_nat (length (f_data f)))
                 (f_modTime f) false
  | NDir d => mkFileInfo (basename name) 0 (d_modTime d) true
  end.

(** [os.Stat(name)]. *)
Definition Stat (name : string) (w : world) : result FileInfo :=
  match nodeAt w name with
  | None => Err ENOENT
  | Some n => Ok (infoOf name n)
  end.

(** [os.OpenFile(name, os.O_RDONLY, 0)], which [os.Open(name)] is. *)
Definition OpenRead (name : string) (w : world) : result File :=
  match nodeAt w name with
  | None => Err ENOENT
  | Some (NFile f) =>
      if f_readable f then Ok (mkHandle name (resolve w name))
      else Err EACCES
  | Some (NDir d) =>
      if d_readable d then Ok (mkHandle name (resolve w name))
      else Err EACCES
  end.

Definition Open := OpenRead.

(** [os.OpenFile(name, os.O_CREATE|os.O_WRONLY|os.O_APPEND, perm)]:
    an absent file is created empty; an existing one is kept as it is
    (no truncation) and later writes go to its end. *)
Definition OpenAppend (name : string) (w : world) : world * result File :=
  match nodeAt w name with
  | None =>
      (mkWorld
         (<[resolve w name := NFile (mkFile [] (clock w) true true)]>
            (files w))
         (links w) (clock w) (free w),
       Ok (mkHandle name (resolve w name)))
  | Some (NFile f) =>
      if f_writable f then (w, Ok (mkHandle name (resolve w name)))
      else (w, Err EACCES)
  | Some (NDir _) => (w, Err EISDIR)
  end.

(** [func (f *File) Stat() (FileInfo, error)]. *)
Definition File_Stat (f : File) (w : world) : result FileInfo :=
  match files w !! fd_path f with
  | None => Err EBADF
  | Some n => Ok (infoOf (fd_name f) n)
  end.

(** [func (f *File) Read(b []byte)] into a buffer of [n] bytes at
    offset [off]: the bytes of the file from [off] on, as the file is
    at the time of the call, as many as the buffer takes; none at end
    of file ([io.EOF]). *)
Definition File_Read (f : File) (n off : nat) (w : world)
  : result (list Z) :=
  match files w !! fd_path f with
  | None => Err EBADF
  | Some (NDir _) => Err EISDIR
  | Some (NFile fl) => Ok (take n (drop off (f_data fl)))
  end.

(** [func (f *File) Write(b []byte)] on a file opened with
    [O_APPEND]: the bytes go to the end of the file, as many as the
    device takes; a short write is [ENOSPC]. *)
Definition File_Write (f : File) (b : list Z) (w : world)
  : world * option error :=
  match files w !! fd_path f with
  | Some (NFile fl) =>
      match b with
      | [] => (w, None)
      | _ :: _ =>
          let n := Nat.min (length b) (free w) in
          let fl' := mkFile (f_data fl ++ take n b) (clock w)
                            (f_readable fl) (f_writable fl) in
          (mkWorld (<[fd_path f := NFile fl']> (files w)) (links w)
                   (clock w) (free w - n)%nat,
           if (n <? length b)%nat then Some ENOSPC else None)
      end
  | _ => (w, Some EBADF)
  end.

(** The bytes of the file kept under a path; none when there is no
    file. *)
Definition content (wd : world) (path : string) : list Z :=
  match files wd !! path with
  | Some (NFile fl) => f_data fl
  | _ => []
  end.

(** The bytes of the file a name names. *)
Definition dataAt (wd : world) (name : string) : list Z :=
  content wd (resolve wd name).

(** Two worlds with the same links that keep the same thing under
    every path but [p]. *)
Definition sameBut (p : string) (wd wd' : world) : Prop :=
  links wd' = links wd
  /\ forall q : string, q <> p -> files wd' !! q = files wd !! q.

(** [func (f *File) Readdir(n int)] with [n = -1]; the code drops
    the error. *)
Definition File_Readdir (f : File) (w : world) : list FileInfo :=
  match files w !! fd_path f with
  | Some (NDir d) => d_entries d
  | _ => []
  end.

End os.

(** ** Package [gookit/goutil/fsutil] *)

Module fsutil.

(** [QuickOpenFile(path)]: [os.OpenFile] with
    [os.O_CREATE|os.O_WRONLY|os.O_APPEND].  (It makes the parent
    directories first; a file is kept under its whole path here, with
    no parent to make.) *)
Definition QuickOpenFile := os.OpenAppend.

End fsutil.

(** ** Go package [compress/flate] *)

(** The DEFLATE coder and the CRC-32 of the payload are kept abstract.
    A coder takes the payload piece by piece; with each piece it puts
    out the bytes of the stream that are ready, and the rest when it is
    closed. *)
Class Flate : Type := {
  coder : Type;
  newCoder : coder;
  feed : coder -> list Z -> coder * list Z;
  finish : coder -> list Z;
  crc32 : list Z -> Z
}.

Module flate.

Section coder.
Context `{Flate}.

(** [func (w *Writer) Write(data []byte)]: the loop over [data] does
    nothing for no bytes.  The bytes put out are handed to the caller,
    who writes them to the destination. *)
Definition Write (c : coder) (data : list Z) : coder * list Z :=
  match data with
  | [] => (c, [])
  | _ :: _ => feed c data
  end.

(** [func (w *Writer) Close()]. *)
Definition Close (c : coder) : list Z := finish c.

End coder.

End flate.

(** ** Go package [compress/gzip] *)

Module gzip.
Import time.

Definition uint32 (z : Z) : Z := z mod 2 ^ 32.

(** [binary.LittleEndian.PutUint32] and [Uint32]. *)
Definition putUint32 (v : Z) : list Z :=
  [v mod 256; (v / 256) mod 256; (v / 65536) mod 256;
   (v / 16777216) mod 256].
Definition getUint32 (b0 b1 b2 b3 : Z) : Z :=
  b0 + 256 * b1 + 65536 * b2 + 16777216 * b3.

(** The zero [time.Time]: January 1, year 1, 00:00:00 UTC. *)
Definition zeroTime : Time := time.Unix (-62135596800) 0.

(** The runes of a UTF-8 string as Latin-1 bytes, as [writeString]
    needs them: [None] when a rune is 0 or above 0xff.  A rune up to
    0x7f is one byte; one from 0x80 to 0xff is the lead byte 0xC2 or
    0xC3 and a continuation byte; every other byte sequence decodes to
    a rune above 0xff or to the replacement rune 0xFFFD. *)
Fixpoint latin1 (s : list Z) : option (list Z) :=
  match s with
  | [] => Some []
  | b :: rest =>
      if b <? 128 then
        if b =? 0 then None else cons b <$> latin1 rest
      else if (b =? 194) || (b =? 195) then
        match rest with
        | c :: rest' =>
            if (128 <=? c) && (c <=? 191) then
              cons (Z.lor (Z.shiftl (Z.land b 31) 6) (Z.land c 63))
                <$> latin1 rest'
            else None
        | [] => None
        end
      else None
  end.

(** The MTIME field: [uint32(z.ModTime.Unix())] when the time is
    after the epoch, else 0 ("not set"). *)
Definition mtimeField (t : Time) : Z :=
  if Time_After t (time.Unix 0 0) then uint32 (Time_Unix t) else 0.

Section writer.
Context `{Flate}.

(** [type Writer struct], with the fields of its embedded [Header]
    that the code sets.  [payload] is what has been written so far:
    the digest and the size of the trailer are taken of it. *)
Record Writer : Type := mkWriter {
  w : os.File;
  Name : string;
  ModTime : Time;
  wroteHeader : bool;
  compressor : coder;
  payload : list Z;
  closed : bool;
  err : option error
}.

(** [func NewWriter(w io.Writer) *Writer]. *)
Definition NewWriter (f : os.File) : Writer :=
  mkWriter f EmptyString zeroTime false newCoder [] false None.

Definition setName (z : Writer) (s : string) : Writer :=
  mkWriter (w z) s (ModTime z) (wroteHeader z) (compressor z) (payload z)
           (closed z) (err z).
Definition setModTime (z : Writer) (t : Time) : Writer :=
  mkWriter (w z) (Name z) t (wroteHeader z) (compressor z) (payload z)
           (closed z) (err z).
Definition setWroteHeader (z : Writer) : Writer :=
  mkWriter (w z) (Name z) (ModTime z) true (compressor z) (payload z)
           (closed z) (err z).
Definition setCompressor (z : Writer) (c : coder) : Writer :=
  mkWriter (w z) (Name z) (ModTime z) (wroteHeader z) c (payload z)
           (closed z) (err z).
Definition setPayload (z : Writer) (p : list Z) : Writer :=
  mkWriter (w z) (Name z) (ModTime z) (wroteHeader z) (compressor z) p
           (closed z) (err z).
Definition setClosed (z : Writer) : Writer :=
  mkWriter (w z) (Name z) (ModTime z) (wroteHeader z) (compressor z)
           (payload z) true (err z).
Definition setErr (z : Writer) (e : option error) : Writer :=
  mkWriter (w z) (Name z) (ModTime z) (wroteHeader z) (compressor z)
           (payload z) (closed z) e.

(** The ten fixed bytes of the member header: ID1, ID2, CM, FLG,
    MTIME, XFL, OS.  [Extra] and [Comment] are never set here, the
    level is the default one and OS is 255 (unknown). *)
Definition header10 (z : Writer) : list Z :=
  [31; 139; 8; if String.eqb (Name z) EmptyString then 0 else 8]
    ++ putUint32 (mtimeField (ModTime z)) ++ [0; 255].

(** The whole header as a writer with no error puts it out: the
    fixed bytes, then the name in Latin-1 with its terminating zero
    when there is a name. *)
Definition headerBytes (z : Writer) : option (list Z) :=
  if String.eqb (Name z) EmptyString then Some (header10 z)
  else
    match latin1 (bytesOfString (Name z)) with
    | Some b => Some (header10 z ++ b ++ [0])
    | None => None
    end.

(** [func (z *Writer) writeString(s string) error]. *)
Definition writeString (z : Writer) (s : string) (wd : os.world)
  : os.world * option error :=
  match latin1 (bytesOfString s) with
  | None => (wd, Some ErrHeaderString)
  | Some b =>
      match os.File_Write (w z) b wd with
      | (wd1, Some e) => (wd1, Some e)
      | (wd1, None) => os.File_Write (w z) [0] wd1
      end
  end.

(** [func (z *Writer) Write(p []byte) (int, error)]: the header goes
    out with the first call; then size and digest take [p] in, and
    the compressor is handed [p] and writes what it puts out to the
    destination. *)
Definition Write (z : Writer) (p : list Z) (wd : os.world)
  : os.world * Writer * option error :=
  match err z with
  | Some e => (wd, z, Some e)
  | None =>
      let '(wd1, z1) :=
        if wroteHeader z then (wd, z)
        else
          let z := setWroteHeader z in
          match os.File_Write (w z) (header10 z) wd with
          | (wd1, Some e) => (wd1, setErr z (Some e))
          | (wd1, None) =>
              if String.eqb (Name z) EmptyString then (wd1, z)
              else
                let '(wd2, e) := writeString z (Name z) wd1 in
                (wd2, setErr z e)
          end in
      match err z1 with
      | Some e => (wd1, z1, Some e)
      | None =>
          let z2 := setPayload z1 (payload z1 ++ p) in
          let '(c, out) := flate.Write (compressor z2) p in
          let '(wd2, e) := os.File_Write (w z2) out wd1 in
          (wd2, setErr (setCompressor z2 c) e, e)
      end
  end.

(** CRC-32 and size of the payload, the eight bytes after it. *)
Definition trailer (payload : list Z) : list Z :=
  putUint32 (uint32 (crc32 payload))
  ++ putUint32 (uint32 (Z.of_nat (length payload))).

(** [func (z *Writer) Close() error]: the header if it is not out
    yet, the rest of the compressed stream, then CRC-32 and size. *)
Definition Close (z : Writer) (wd : os.world)
  : os.world * Writer * option error :=
  match err z with
  | Some e => (wd, z, Some e)
  | None =>
      if closed z then (wd, z, None)
      else
        let z := setClosed z in
        let '(wd1, z1, _) :=
          if wroteHeader z then (wd, z, None) else Write z [] wd in
        match err z1 with
        | Some e => (wd1, z1, Some e)
        | None =>
            match os.File_Write (w z1) (flate.Close (compressor z1)) wd1 with
            | (wd2, Some e) => (wd2, setErr z1 (Some e), Some e)
            | (wd2, None) =>
                let '(wd3, e) :=
                  os.File_Write (w z1) (trailer (payload z1)) wd2 in
                (wd3, setErr z1 e, e)
            end
        end
  end.

End writer.

(** *** Reading a member header back (RFC 1952, section 2.3) *)

Record Header : Type := mkHeader {
  h_name : string;
  h_mtime : Z      (* seconds since the epoch; 0: not set *)
}.

(** [hdr.ModTime] as [compress/gzip]'s reader gives it:
    [time.Unix(t, 0)] for a set MTIME, else the zero time. *)
Definition Header_ModTime (h : Header) : Time :=
  if 0 <? h_mtime h then time.Unix (h_mtime h) 0 else zeroTime.

(** A zero-terminated string and what follows it. *)
Fixpoint cstring (bs : list Z) : option (list Z * list Z) :=
  match bs with
  | [] => None
  | b :: rest =>
      if b =? 0 then Some ([], rest)
      else
        match cstring rest with
        | Some (s, rest') => Some (b :: s, rest')
        | None => None
        end
  end.

(** Latin-1 bytes as a UTF-8 string. *)
Definition utf8OfLatin1 (bs : list Z) : list Z :=
  flat_map
    (fun v =>
       if v <? 128 then [v]
       else [Z.lor 192 (Z.shiftr v 6); Z.lor 128 (Z.land v 63)])
    bs.

Definition readHeader (bs : list Z) : option Header :=
  match bs with
  | id1 :: id2 :: cm :: flg :: m0 :: m1 :: m2 :: m3 :: xfl :: os :: rest =>
      if (id1 =? 31) && (id2 =? 139) && (cm =? 8) then
        let rest1 :=
          if Z.testbit flg 2 then
            match rest with
            | x0 :: x1 :: rest' => drop (Z.to_nat (x0 + 256 * x1)) rest'
            | _ => []
            end
          else rest in
        if Z.testbit flg 3 then
          match cstring rest1 with
          | Some (s, _) =>
              Some (mkHeader (stringOfBytes (utf8OfLatin1 s))
                             (getUint32 m0 m1 m2 m3))
          | None => None
          end
        else Some (mkHeader EmptyString (getUint32 m0 m1 m2 m3))
      else None
  | _ => None
  end.

End gzip.

(** ** Go package [io] *)

Module io.

(** The buffer [io.Copy] reads into: [32 * 1024] bytes. *)
Definition bufSize : nat := 32 * 1024.

Section copy.
Context `{Flate}.

(** The loop of [io.Copy(dst, src)] for a [*gzip.Writer] and an
    [*os.File]: read, write what was read, until end of file or an
    error.  [off] is the read offset of [src]; [None] stands for a
    loop that has not ended after [rounds] rounds. *)
Fixpoint copyLoop (rounds : nat) (dst : gzip.Writer) (src : os.File)
    (off : nat) (wd : os.world)
  : option (os.world * gzip.Writer * option error) :=
  match rounds with
  | O => None
  | S rounds' =>
      match os.File_Read src bufSize off wd with
      | Err e => Some (wd, dst, Some e)
      | Ok buf =>
          match buf with
          | [] => Some (wd, dst, None)
          | _ :: _ =>
              match gzip.Write dst buf wd with
              | (wd1, dst1, Some e) => Some (wd1, dst1, Some e)
              | (wd1, dst1, None) =>
                  copyLoop rounds' dst1 src (off + length buf)%nat wd1
              end
          end
      end
  end.

(** The rounds the loop is given: one more than the bytes of the
    source and the bytes the device can still take.  Every round but
    the last reads at least one byte, and a byte read was in the file
    at the start or has been written since, at the cost of a byte of
    the device: the loop ends within these rounds, and more rounds
    give the same ([copyLoop_total] and [Copy_rounds] below). *)
Definition rounds (src : os.File) (wd : os.world) : nat :=
  S (length (os.content wd (os.fd_path src)) + os.free wd).

Definition Copy (dst : gzip.Writer) (src : os.File) (wd : os.world)
  : option (os.world * gzip.Writer * option error) :=
  copyLoop (rounds src wd) dst src O wd.

End copy.

End io.

(** ** Go package [sort] *)

Module sort.

(** [type Interface interface { Len() int; Less(i, j int) bool;
    Swap(i, j int) }] for data of type [T]; an index out of range
    panics: [None]. *)
Class Interface (T : Type) : Type := {
  Len : T -> nat;
  Less : T -> nat -> nat -> option bool;
  Swap : T -> nat -> nat -> option T
}.

(** [func IsSorted(data Interface) bool]:
    [for i := n - 1; i > 0; i--] no element is less than the one before
    it.  It is what [sort.Sort] establishes. *)
Fixpoint sortedDownFrom {T : Type} `{Interface T} (data : T) (i : nat)
  : bool :=
  match i with
  | O => true
  | S k =>
      match Less data (S k) k with
      | Some true => false
      | _ => sortedDownFrom data k
      end
  end.

Definition IsSorted {T : Type} `{Interface T} (data : T) : bool :=
  sortedDownFrom data (Len data - 1).

End sort.

(** ** [rotatefile/config.go] *)

Module rotatefile.
Import time.

(** [type rotateLevel uint8] with its four constants. *)
Inductive rotateLevel : Type := levelDay | levelHour | levelMin | levelSec.

(** [type RotateTime int]: the interval in seconds. *)
Definition RotateTime := Z.

Definition EveryDay : RotateTime := timex.OneDaySec.
Definition EveryHour : RotateTime := timex.OneHourSec.
Definition Every30Min : RotateTime := 30 * timex.OneMinSec.
Definition Every15Min : RotateTime := 15 * timex.OneMinSec.
Definition EveryMinute : RotateTime := timex.OneMinSec.
Definition EverySecond : RotateTime := 1.

(** [func (rt RotateTime) Interval() int64]. *)
Definition Interval (rt : RotateTime) : Z := rt.

(** [func (rt RotateTime) level() rotateLevel]. *)
Definition level (rt : RotateTime) : rotateLevel :=
  if timex.OneDaySec <=? rt then levelDay
  else if timex.OneHourSec <=? rt then levelHour
  else if EveryMinute <=? rt then levelMin
  else levelSec.

(** [func (rt RotateTime) FirstCheckTime(now time.Time) int64].
    [interval / 60] is Go's truncated division; [nextMin] and
    [minutes] are converted to [time.Duration] as they are, a count of
    nanoseconds. *)
Definition FirstCheckTime (rt : RotateTime) (now : Time) : Z :=
  let interval := Interval rt in
  match level rt with
  | levelDay => Time_Unix (timex.DayEnd now)
  | levelHour => Time_Unix (Time_Add (timex.HourStart now) timex.OneHour)
  | levelMin =>
      let minutes := Z.quot interval 60 in
      let nextMin := Time_Minute now + minutes in
      if 60 <=? nextMin then
        Time_Unix (Time_Add (timex.HourStart now) timex.OneHour)
      else
        let nextDur := Duration_Round nextMin minutes in
        Time_Unix (Time_Add (timex.HourStart now) nextDur)
  | levelSec => wrap64 (Time_Unix now + interval)
  end.

(** [func (rt RotateTime) TimeFormat() (suffixFormat string)]. *)
Definition TimeFormat (rt : RotateTime) : string :=
  let suffixFormat := "20060102_1500"%string in
  match level rt with
  | levelDay => "20060102"%string
  | levelHour => "20060102_1500"%string
  | levelMin => "20060102_1504"%string
  | levelSec => "20060102_150405"%string
  end.

(** *** Compression and enumeration of backup files *)

Definition compressSuffix : string := ".gz".

(** [func compressFile(srcPath, dstPath string) error].  The two
    deferred [Close] calls release the handles and change no file.
    [None] stands for a copy loop that did not finish. *)
Definition compressFile `{Flate} (srcPath dstPath : string)
    (wd : os.world) : option (os.world * option error) :=
  match os.OpenRead srcPath wd with
  | Err e => Some (wd, Some e)
  | Ok srcFile =>
      match fsutil.QuickOpenFile dstPath wd with
      | (wd1, Err e) => Some (wd1, Some e)
      | (wd1, Ok gzFile) =>
          let zw := gzip.NewWriter gzFile in
          match os.File_Stat srcFile wd1 with
          | Err e => Some (wd1, Some e)
          | Ok fileSt =>
              let zw := gzip.setName zw (os.Name fileSt) in
              let zw := gzip.setModTime zw (os.ModTime fileSt) in
              match io.Copy zw srcFile wd1 with
              | None => None
              | Some (wd2, _, Some e) => Some (wd2, Some e)
              | Some (wd2, zw, None) =>
                  let '(wd3, _, e) := gzip.Close zw wd2 in
                  Some (wd3, e)
              end
          end
      end
  end.

(** [type filterFunc func(fPath string, fi os.FileInfo) bool] and
    [type handleFunc func(fPath string, fi os.FileInfo) error]; a
    handler may change state [S] of its own. *)
Definition filterFunc : Type := string -> os.FileInfo -> bool.
Definition handleFunc (S : Type) : Type :=
  string -> os.FileInfo -> S -> S * option error.

(** The [for _, fi := range stats] loop of [findFilesInDir]. *)
Fixpoint handleStats {S : Type} (dir : string) (handleFn : handleFunc S)
    (filters : list filterFunc) (stats : list os.FileInfo) (s : S)
  : S * option error :=
  match stats with
  | [] => (s, None)
  | fi :: stats' =>
      let baseName := os.Name fi in
      let filePath := (dir ++ baseName)%string in
      let filtered :=
        (0 <? length filters)%nat
        && existsb (fun filter => negb (filter filePath fi)) filters in
      if filtered then handleStats dir handleFn filters stats' s
      else
        match handleFn filePath fi s with
        | (s1, Some e) => (s1, Some e)
        | (s1, None) => handleStats dir handleFn filters stats' s1
        end
  end.

(** [func findFilesInDir(dir string, handleFn handleFunc,
    filters ...filterFunc) (err error)].  [err] is the named result:
    [fi, err := os.Stat(dir)] and [d, err := os.Open(dir)] assign to
    it, and each bare [return] hands back the value it holds. *)
Definition findFilesInDir {S : Type} (dir : string)
    (handleFn : handleFunc S) (filters : list filterFunc)
    (wd : os.world) (s : S) : S * option error :=
  match os.Stat dir wd with
  | Err err => (s, Some err)
  | Ok fi =>
      if negb (os.IsDir fi) then (s, None)
      else
        match os.Open dir wd with
        | Err err => (s, Some err)
        | Ok d =>
            let stats := os.File_Readdir d wd in
            handleStats dir handleFn filters stats s
        end
  end.

(** [type fileInfo struct { fs.FileInfo; filePath string }]. *)
Record fileInfo : Type := newFileInfo {
  filePath : string;
  FileInfo : os.FileInfo
}.

Definition Path (fi : fileInfo) : string := filePath fi.

(** The modification instant of an entry, in nanoseconds. *)
Definition mtime (fi : fileInfo) : Z := unixNano (os.ModTime (FileInfo fi)).

(** [type modTimeFInfos []fileInfo] with the three methods of
    [sort.Interface].  An index out of range panics: [None]. *)
Definition modTimeFInfos : Type := list fileInfo.

Definition Less (fis : modTimeFInfos) (i j : nat) : option bool :=
  match fis !! j, fis !! i with
  | Some fj, Some fi =>
      Some (Time_After (os.ModTime (FileInfo fj))
                       (os.ModTime (FileInfo fi)))
  | _, _ => None
  end.

Definition Swap (fis : modTimeFInfos) (i j : nat) : option modTimeFInfos :=
  match fis !! j, fis !! i with
  | Some fj, Some fi => Some (<[j := fi]> (<[i := fj]> fis))
  | _, _ => None
  end.

Definition Len (fis : modTimeFInfos) : nat := length fis.

#[export] Instance modTimeFInfos_Interface : sort.Interface modTimeFInfos :=
  {| sort.Len := Len; sort.Less := Less; sort.Swap := Swap |}.

End rotatefile.

(** ** [record.go] *)

Module slog.
Import time.

Section record.
(** The values a [map[string]any] holds. *)
Context {any : Type}.

(** [type M map[string]any]; a field of type [M] may be [nil]. *)
Abbreviation M := (gmap string any).

(** [type Record struct]: the fields that carry data. *)
Record Record : Type := mkRecord {
  Time : time.Time;
  Level : Z;
  levelName : string;
  Channel : string;
  Message : string;
  Fields : option M;
  Data : option M;
  Extra : option M;
  CallerFlag : Z;
  CallerSkip : Z
}.

Definition setData (r : Record) (d : option M) : Record :=
  mkRecord (Time r) (Level r) (levelName r) (Channel r) (Message r)
           (Fields r) d (Extra r) (CallerFlag r) (CallerSkip r).
Definition setFields (r : Record) (f : option M) : Record :=
  mkRecord (Time r) (Level r) (levelName r) (Channel r) (Message r)
           f (Data r) (Extra r) (CallerFlag r) (CallerSkip r).
Definition setExtra (r : Record) (e : option M) : Record :=
  mkRecord (Time r) (Level r) (levelName r) (Channel r) (Message r)
           (Fields r) (Data r) e (CallerFlag r) (CallerSkip r).

(** [func (r *Record) AddValue(key string, value any) *Record]. *)
Definition AddValue (r : Record) (key : string) (value : any) : Record :=
  match Data r with
  | None => setData r (Some ∅)
  | Some data => setData r (Some (<[key := value]> data))
  end.

(** [func (r *Record) AddField(name string, val any) *Record]. *)
Definition AddField (r : Record) (name : string) (val : any) : Record :=
  let r :=
    match Fields r with
    | None => setFields r (Some ∅)
    | Some _ => r
    end in
  match Fields r with
  | Some fields => setFields r (Some (<[name := val]> fields))
  | None => r
  end.

(** [func (r *Record) SetExtraValue(k string, v any)]. *)
Definition SetExtraValue (r : Record) (k : string) (v : any) : Record :=
  let r :=
    match Extra r with
    | None => setExtra r (Some ∅)
    | Some _ => r
    end in
  match Extra r with
  | Some extra => setExtra r (Some (<[k := v]> extra))
  | None => r
  end.

End record.
Arguments Record : clear implicits.
Abbreviation M any := (gmap string any).

End slog.

(** ** Worlds to run the code in *)

Module examples.
Import time os.

(** A coder that stores the payload as it is: it keeps what it is
    handed and puts it all out when it is closed, as the coder of
    [compress/flate] does with a payload of a few bytes.  The checksum
    is 0. *)
Definition plainFlate : Flate :=
  {| coder := list Z; newCoder := []; feed := fun c d => (c ++ d, []);
     finish := fun c => c; crc32 := fun _ => 0 |}.

(** A coder that stores the payload as it is and puts every piece out
    at once, as happens with a payload that does not shrink. *)
Definition eagerFlate : Flate :=
  {| coder := unit; newCoder := tt; feed := fun _ d => (tt, d);
     finish := fun _ => []; crc32 := fun _ => 0 |}.

(** One log backup of two bytes, last modified at 2022-04-20
    19:20:30.5 UTC; the clock is seventy seconds later. *)
Definition backupWorld : world :=
  mkWorld
    {[ "/var/log/app.log.1"%string :=
         NFile (mkFile [120; 121] (mkTime 1650482430500000000 0) true true) ]}
    ∅ (time.Unix 1650482500 0) 4096.

(** The same backup with a second name for it: another spelling of its
    path. *)
Definition linkedWorld : world :=
  mkWorld (files backupWorld)
    {[ "/var/log/./app.log.1"%string := "/var/log/app.log.1"%string ]}
    (clock backupWorld) (free backupWorld).

(** A directory that may be read and one that may not. *)
Definition dirWorld : world :=
  let t := time.Unix 1650482430 0 in
  let entry := mkFileInfo "app.log.1" 2 t false in
  mkWorld
    {[ "/var/log/locked/"%string := NDir (mkDir [entry] t false);
       "/var/log/app/"%string := NDir (mkDir [entry] t true) ]}
    ∅ t 0.

(** Three backups, oldest first. *)
Definition threeBackups : rotatefile.modTimeFInfos :=
  [ rotatefile.newFileInfo "/var/log/app.log.1"
      (mkFileInfo "app.log.1" 2 (time.Unix 1650400000 0) false);
    rotatefile.newFileInfo "/var/log/app.log.2"
      (mkFileInfo "app.log.2" 2 (time.Unix 1650400000 0) false);
    rotatefile.newFileInfo "/var/log/app.log.3"
      (mkFileInfo "app.log.3" 2 (time.Unix 1650482430 0) false) ].

End examples.

(** ** The boundaries as the documentation words them *)

Module documented.
Import time.


(** The start of the calendar hour after the one [now] is in. *)
Definition nextHourStart (now : Time) : Time :=
  Date (Time_Date now) (Time_Hour now + 1) 0 0 0 (Time_Location now).

(** The minute-level deadline of the comment in [FirstCheckTime]
    ("now.Minute()=37, nextMin=42, will get nextDur=40"): the minute of
    [now] advanced by the interval and rounded to the nearest multiple
    of the interval, counted in minutes from the start of the hour. *)
Definition roundedMinute (rt : Z) (now : Time) : Z :=
  let minutes := Z.quot rt 60 in
  Duration_Round (Time_Minute now + minutes) minutes.

Definition minuteDeadline (rt : Z) (now : Time) : Z :=
  Time_Unix (Time_Add (timex.HourStart now)
                      (roundedMinute rt now * time.Minute)).

End documented.

(** ** [rotatefile/config.go]: the configuration *)

Module config.
Import time.

(** Reduction of an exact result to [uint64] ([uint] has 64 bits). *)
Definition wrapU64 (z : Z) : Z := z mod 2 ^ 64.

(** [type Config struct]: the fields that hold data.  [RenameFunc] and
    [TimeClock] hold functions, which the two methods below do not read.
    [MaxSize], [BackupNum] and [BackupTime] are [uint]. *)
Record Config : Type := mkConfig {
  Filepath : string;
  MaxSize : Z;
  RotateTime : Z;
  CloseLock : bool;
  BackupNum : Z;
  BackupTime : Z
}.

Definition oneMByte : Z := 1024 * 1024.

(** [func (c *Config) backupDuration() time.Duration]:
    [time.Duration(c.BackupTime) * time.Hour], both steps in [int64]. *)
Definition backupDuration (c : Config) : Z :=
  if BackupTime c <? 1 then 0
  else wrap64 (wrap64 (BackupTime c) * time.Hour).

(** [func (c *Config) maxSizeByte() uint64]: the product is taken in
    [uint]. *)
Definition maxSizeByte (c : Config) : Z :=
  if MaxSize c <? 1 then 0
  else wrapU64 (wrapU64 (MaxSize c * oneMByte)).

End config.

(** ** [record.go]: copies and merges *)

Module record.
Import slog.

Section more.
Context {any : Type}.

(** [for k, v := range src { dst[k] = v }]. *)
Definition rangeInsert (src dst : gmap string any) : gmap string any :=
  map_fold (fun k v acc => <[k := v]> acc) dst src.

(** [c := make(M, len(m)); for k, v := range m { c[k] = v }]; over a
    nil map the loop does not run. *)
Definition copyMap (m : option (gmap string any)) : gmap string any :=
  match m with
  | None => ∅
  | Some m => rangeInsert m ∅
  end.

Definition setTime (r : Record any) (t : time.Time) : Record any :=
  mkRecord t (Level r) (levelName r) (Channel r) (Message r)
           (Fields r) (Data r) (Extra r) (CallerFlag r) (CallerSkip r).
Definition setLevel (r : Record any) (l : Z) : Record any :=
  mkRecord (Time r) l (levelName r) (Channel r) (Message r)
           (Fields r) (Data r) (Extra r) (CallerFlag r) (CallerSkip r).
Definition setMessage (r : Record any) (m : string) : Record any :=
  mkRecord (Time r) (Level r) (levelName r) (Channel r) m
           (Fields r) (Data r) (Extra r) (CallerFlag r) (CallerSkip r).

(** [func (r *Record) Copy() *Record]. *)
Definition Copy (r : Record any) : Record any :=
  let dataCopy := copyMap (Data r) in
  let fieldsCopy := copyMap (Fields r) in
  let extraCopy := copyMap (Extra r) in
  mkRecord (Time r) (Level r) (levelName r) (Channel r) (Message r)
           (Some fieldsCopy) (Some dataCopy) (Some extraCopy)
           (CallerFlag r) (CallerSkip r).

(** [func (r *Record) WithTime(t time.Time) *Record]. *)
Definition WithTime (r : Record any) (t : time.Time) : Record any :=
  let nr := Copy r in
  setTime nr t.

(** [func (r *Record) WithData(data M) *Record]. *)
Definition WithData (r : Record any) (data : option (gmap string any))
  : Record any :=
  let nr := Copy r in
  setData nr data.

(** [func (r *Record) WithFields(fields M) *Record]. *)
Definition WithFields (r : Record any) (fields : option (gmap string any))
  : Record any :=
  let nr := Copy r in
  let nr :=
    match Fields nr with
    | None => setFields nr (Some ∅)
    | Some _ => nr
    end in
  match fields, Fields nr with
  | Some fields, Some m => setFields nr (Some (rangeInsert fields m))
  | _, _ => nr
  end.

(** [func (r *Record) WithField(name string, val any) *Record]. *)
Definition WithField (r : Record any) (name : string) (val : any)
  : Record any :=
  WithFields r (Some {[ name := val ]}).

(** [func (r *Record) SetData(data M) *Record], and its like. *)
Definition SetData (r : Record any) (data : option (gmap string any))
  : Record any := setData r data.
Definition SetExtra (r : Record any) (data : option (gmap string any))
  : Record any := setExtra r data.
Definition SetFields (r : Record any) (fields : option (gmap string any))
  : Record any := setFields r fields.
Definition SetTime (r : Record any) (t : time.Time) : Record any :=
  setTime r t.

(** [func (r *Record) AddData(data M) *Record]. *)
Definition AddData (r : Record any) (data : option (gmap string any))
  : Record any :=
  match Data r with
  | None => setData r data
  | Some m =>
      match data with
      | None => r
      | Some data => setData r (Some (rangeInsert data m))
      end
  end.

(** [func (r *Record) AddExtra(data M) *Record]. *)
Definition AddExtra (r : Record any) (data : option (gmap string any))
  : Record any :=
  match Extra r with
  | None => setExtra r data
  | Some m =>
      match data with
      | None => r
      | Some data => setExtra r (Some (rangeInsert data m))
      end
  end.

(** [func (r *Record) AddFields(fields M) *Record]. *)
Definition AddFields (r : Record any) (fields : option (gmap string any))
  : Record any :=
  match Fields r with
  | None => setFields r fields
  | Some m =>
      match fields with
      | None => r
      | Some fields => setFields r (Some (rangeInsert fields m))
      end
  end.

(** The entry of a map field under a key; none in a nil map. *)
Definition entry (m : option (gmap string any)) (k : string) : option any :=
  m ≫= (fun m => m !! k).

(** *** Logging with a level

    [log] and [logf] set the level and the message and hand the record
    to [r.logger.writeRecord(level, r)]; what they hand over is the
    result here.  The levels, [formatArgsWithSpaces] and [fmt.Sprintf]
    are declared outside the files at hand. *)
Section levelled.
Variables ErrorLevel WarnLevel : Z.
Variable formatArgsWithSpaces : list any -> string.
Variable Sprintf : string -> list any -> string.

Definition log (r : Record any) (level : Z) (args : list any)
  : Z * Record any :=
  let r := setLevel r level in
  let r := setMessage r (formatArgsWithSpaces args) in
  (level, r).

Definition logf (r : Record any) (level : Z) (format : string)
    (args : list any) : Z * Record any :=
  let r := setLevel r level in
  let r := setMessage r (Sprintf format args) in
  (level, r).

Definition Error (r : Record any) (args : list any) := log r ErrorLevel args.
Definition Errorf (r : Record any) (format : string) (args : list any) :=
  logf r ErrorLevel format args.
Definition Warn (r : Record any) (args : list any) := log r WarnLevel args.
Definition Warnf (r : Record any) (format : string) (args : list any) :=
  logf r ErrorLevel format args.

End levelled.

End more.

End record.

(** ** [handler.go] *)

Module handler.

(** [type LevelsWithFormatter struct]: its levels; the embedded
    [Formattable] plays no part in [IsHandling]. *)
Record LevelsWithFormatter : Type := mkLevelsWithFormatter {
  Levels : list Z
}.

(** [func NewLvsFormatter(levels []Level) *LevelsWithFormatter]. *)
Definition NewLvsFormatter (levels : list Z) : LevelsWithFormatter :=
  mkLevelsWithFormatter levels.

(** The loop of [IsHandling]. *)
Fixpoint anyEqual (levels : list Z) (level : Z) : bool :=
  match levels with
  | [] => false
  | l :: levels' => if l =? level then true else anyEqual levels' level
  end.

(** [func (h *LevelsWithFormatter) IsHandling(level Level) bool]. *)
Definition IsHandling (h : LevelsWithFormatter) (level : Z) : bool :=
  anyEqual (Levels h) level.

End handler.

(** ** What a scan and a write are observed by *)

Module observe.

(** [wd'] is [wd] after bytes were put at the end of the file kept
    under [p], each taken from the free bytes of the device, and
    nothing else was done. *)
Definition appended (p : string) (wd wd' : os.world) : Prop :=
  os.sameBut p wd wd'
  /\ exists sfx : list Z,
      os.content wd' p = os.content wd p ++ sfx
      /\ (os.free wd' + length sfx <= os.free wd)%nat.

(** A payload cut into the pieces a buffer of [n] bytes reads it in. *)
Fixpoint piecesFrom (k n : nat) (l : list Z) : list (list Z) :=
  match k with
  | O => []
  | S k' =>
      match l with
      | [] => []
      | _ :: _ => take n l :: piecesFrom k' n (drop n l)
      end
  end.

Definition pieces (n : nat) (l : list Z) : list (list Z) :=
  piecesFrom (length l) n l.

Section stream.
Context `{Flate}.

(** A coder handed pieces one after the other: the coder it becomes
    and all it has put out. *)
Fixpoint feeds (c : coder) (ps : list (list Z)) : coder * list Z :=
  match ps with
  | [] => (c, [])
  | p :: ps' =>
      let '(c1, out) := flate.Write c p in
      let '(c2, outs) := feeds c1 ps' in
      (c2, out ++ outs)
  end.

(** The whole stream of a new coder handed the pieces and closed. *)
Definition stream (ps : list (list Z)) : list Z :=
  let '(c, outs) := feeds newCoder ps in
  outs ++ flate.Close c.

End stream.

(** An entry passes when no filter turns it down. *)
Definition passes (dir : string) (filters : list rotatefile.filterFunc)
    (fi : os.FileInfo) : bool :=
  forallb (fun filter => filter (dir ++ os.Name fi)%string fi) filters.

End observe.

(** ** Go package [strconv], and [Record.timestamp] *)

Module strconv.

(** The character of a decimal digit. *)
Definition digit (d : Z) : ascii := ascii_of_N (Z.to_N (48 + d)).

(** The decimal digits of [n >= 0] before [acc], most significant
    first; twenty rounds cover every [int64]. *)
Fixpoint digitsFrom (rounds : nat) (n : Z) (acc : list ascii) : list ascii :=
  match rounds with
  | O => acc
  | S rounds' =>
      let acc' := digit (n mod 10) :: acc in
      if n <? 10 then acc' else digitsFrom rounds' (n / 10) acc'
  end.

(** [func FormatInt(i int64, base int) string] for base 10, as the
    bytes of the string. *)
Definition FormatInt10 (i : Z) : list ascii :=
  if i <? 0 then "-"%char :: digitsFrom 20 (- i) []
  else digitsFrom 20 i [].

End strconv.

Module stamp.
Import slog.

(** [func (t Time) UnixMicro() int64]. *)
Definition Time_UnixMicro (t : time.Time) : Z := time.unixNano t / 1000.

(** [func (r *Record) timestamp() string]: [s[:10] + "." + s[10:]];
    slicing a string shorter than ten bytes panics: [None]. *)
Definition timestamp {any : Type} (r : Record any) : option string :=
  let s := strconv.FormatInt10 (Time_UnixMicro (Time r)) in
  if (length s <? 10)%nat then None
  else Some (string_of_list_ascii (take 10 s ++ "."%char :: drop 10 s)).

(** Six decimal digits, with leading zeros. *)
Definition sixDigits (n : Z) : list ascii :=
  map (fun p => strconv.digit ((n / p) mod 10))
      [100000; 10000; 1000; 100; 10; 1].

End stamp.

(** ** One more world *)

Module more_examples.
Import time os.



End more_examples.

(** * Properties *)

(** ** Time arithmetic *)

Module time_facts.
Import time.

Lemma Second_val : time.Second = 1000000000.
Proof. reflexivity. Qed.

Lemma Hour_val : time.Hour = 3600 * 1000000000.
Proof. reflexivity. Qed.

(** Whole seconds of an instant given as seconds and a nanosecond part. *)
Lemma Time_Unix_mk (s ns off : Z) :
  0 <= ns < 1000000000 ->
  Time_Unix (mkTime (s * time.Second + ns) off) = s.
Proof.
  intros Hns. unfold Time_Unix. cbn [unixNano]. rewrite Second_val.
  symmetry. apply (Z.div_unique _ _ s ns); lia.
Qed.

Lemma Time_Unix_Date (day hour min sec nsec loc : Z) :
  0 <= nsec < 1000000000 ->
  Time_Unix (Date day hour min sec nsec loc)
  = day * 86400 + hour * 3600 + min * 60 + sec - loc.
Proof. intros H. unfold Date. now apply Time_Unix_mk. Qed.

Lemma Time_Unix_Add_Date (day hour min sec loc d : Z) :
  0 <= d < 1000000000 ->
  Time_Unix (Time_Add (Date day hour min sec 0 loc) d)
  = day * 86400 + hour * 3600 + min * 60 + sec - loc.
Proof.
  intros H. unfold Time_Add, Date. cbn [unixNano zoneOffset].
  rewrite Z.add_0_r. now apply Time_Unix_mk.
Qed.

(** The wall clock splits into day, hour, minute and second. *)
Lemma localSec_split (t : Time) :
  localSec t
  = Time_Date t * 86400 + Time_Hour t * 3600 + Time_Minute t * 60
    + Time_Second t.
Proof.
  unfold Time_Date, Time_Hour, Time_Minute, Time_Second.
  generalize (localSec t). intros l. Z.div_mod_to_equations. lia.
Qed.

Lemma Time_Hour_range (t : Time) : 0 <= Time_Hour t < 24.
Proof.
  unfold Time_Hour. generalize (localSec t). intros l.
  Z.div_mod_to_equations. lia.
Qed.

Lemma Time_Minute_range (t : Time) : 0 <= Time_Minute t < 60.
Proof.
  unfold Time_Minute. generalize (localSec t). intros l.
  Z.div_mod_to_equations. lia.
Qed.

Lemma Time_Second_range (t : Time) : 0 <= Time_Second t < 60.
Proof.
  unfold Time_Second. generalize (localSec t). intros l.
  Z.div_mod_to_equations. lia.
Qed.

(** Rounding a minute count below sixty stays far below a second's
    worth of nanoseconds. *)
Lemma Duration_Round_small (d m : Z) :
  0 <= d < 60 -> 0 < m < 60 -> 0 <= Duration_Round d m < 120.
Proof.
  intros Hd Hm. unfold Duration_Round, lessThanHalf.
  destruct (Z.leb_spec m 0); [lia|].
  destruct (Z.ltb_spec d 0); [lia|].
  rewrite Z.rem_mod_nonneg by lia.
  pose proof (Z.mod_pos_bound d m ltac:(lia)) as Hr.
  pose proof (Z.mod_le d m ltac:(lia) ltac:(lia)) as Hle.
  destruct (Z.ltb_spec (d mod m + d mod m) m); [lia|].
  assert (Hw : wrap64 (d + m - d mod m) = d + m - d mod m).
  { unfold wrap64. rewrite Z.mod_small; lia. }
  rewrite Hw. destruct (Z.ltb_spec d (d + m - d mod m)); lia.
Qed.

End time_facts.

Module timex_facts.
Import time timex time_facts.

Lemma Unix_DayStart (t : Time) :
  Time_Unix (DayStart t) = Time_Date t * 86400 - zoneOffset t.
Proof. unfold DayStart, Time_Location. rewrite Time_Unix_Date; lia. Qed.

Lemma Unix_DayEnd (t : Time) :
  Time_Unix (DayEnd t) = Time_Unix (DayStart t) + 86399.
Proof.
  rewrite Unix_DayStart. unfold DayEnd, Time_Location.
  rewrite Time_Unix_Date; [lia|]. rewrite Second_val. unfold Nanosecond. lia.
Qed.

Lemma Unix_HourStart (t : Time) :
  Time_Unix (HourStart t)
  = Time_Unix t - (Time_Minute t * 60 + Time_Second t).
Proof.
  unfold HourStart, Time_Location. rewrite Time_Unix_Date by lia.
  pose proof (localSec_split t) as Hs. unfold localSec in Hs at 1. lia.
Qed.

Lemma Unix_HourStart_Add_small (t : Time) (d : Z) :
  0 <= d < 1000000000 ->
  Time_Unix (Time_Add (HourStart t) d) = Time_Unix (HourStart t).
Proof.
  intros Hd. unfold HourStart, Time_Location.
  rewrite Time_Unix_Add_Date by lia. rewrite Time_Unix_Date; lia.
Qed.

Lemma Unix_HourStart_Add_OneHour (t : Time) :
  Time_Unix (Time_Add (HourStart t) OneHour) = Time_Unix (HourStart t) + 3600.
Proof.
  unfold HourStart, Time_Location, Time_Add, Date, OneHour.
  cbn [unixNano zoneOffset]. rewrite Hour_val.
  replace ((Time_Date t * 86400 + Time_Hour t * 3600 + 0 * 60 + 0
            - zoneOffset t) * time.Second + 0 + 3600 * 1000000000)
    with ((Time_Date t * 86400 + Time_Hour t * 3600 + 0 * 60 + 0
           - zoneOffset t + 3600) * time.Second + 0)
    by (rewrite Second_val; lia).
  rewrite !Time_Unix_mk by lia. lia.
Qed.

Lemma Unix_HourStart_le (t : Time) : Time_Unix (HourStart t) <= Time_Unix t.
Proof.
  rewrite Unix_HourStart.
  pose proof (Time_Minute_range t). pose proof (Time_Second_range t). lia.
Qed.

End timex_facts.

(** ** Rotation policy *)

Module rotation_facts.
Import time timex rotatefile time_facts timex_facts.

Lemma level_day (rt : Z) : 86400 <= rt -> level rt = levelDay.
Proof.
  intros H. unfold level, OneDaySec.
  destruct (Z.leb_spec 86400 rt); [reflexivity | lia].
Qed.

Lemma level_hour (rt : Z) : 3600 <= rt < 86400 -> level rt = levelHour.
Proof.
  intros H. unfold level, OneDaySec, OneHourSec.
  destruct (Z.leb_spec 86400 rt); [lia|].
  destruct (Z.leb_spec 3600 rt); [reflexivity | lia].
Qed.

Lemma level_min (rt : Z) : 60 <= rt < 3600 -> level rt = levelMin.
Proof.
  intros H. unfold level, OneDaySec, OneHourSec, EveryMinute, OneMinSec.
  destruct (Z.leb_spec 86400 rt); [lia|].
  destruct (Z.leb_spec 3600 rt); [lia|].
  destruct (Z.leb_spec 60 rt); [reflexivity | lia].
Qed.

Lemma level_sec (rt : Z) : rt < 60 -> level rt = levelSec.
Proof.
  intros H. unfold level, OneDaySec, OneHourSec, EveryMinute, OneMinSec.
  destruct (Z.leb_spec 86400 rt); [lia|].
  destruct (Z.leb_spec 3600 rt); [lia|].
  destruct (Z.leb_spec 60 rt); [lia | reflexivity].
Qed.

(** What [FirstCheckTime] returns, level by level. *)

Lemma FirstCheckTime_day (rt : Z) (now : Time) :
  86400 <= rt ->
  FirstCheckTime rt now = Time_Unix (DayStart now) + 86399.
Proof.
  intros H. unfold FirstCheckTime. rewrite level_day by assumption.
  apply Unix_DayEnd.
Qed.

Lemma FirstCheckTime_hour (rt : Z) (now : Time) :
  3600 <= rt < 86400 ->
  FirstCheckTime rt now = Time_Unix (HourStart now) + 3600.
Proof.
  intros H. unfold FirstCheckTime. rewrite level_hour by assumption.
  apply Unix_HourStart_Add_OneHour.
Qed.

Lemma FirstCheckTime_min_next_hour (rt : Z) (now : Time) :
  60 <= rt < 3600 ->
  60 <= Time_Minute now + Z.quot rt 60 ->
  FirstCheckTime rt now = Time_Unix (HourStart now) + 3600.
Proof.
  intros H Hn. unfold FirstCheckTime, Interval.
  rewrite level_min by assumption.
  destruct (Z.leb_spec 60 (Time_Minute now + Z.quot rt 60)); [|lia].
  apply Unix_HourStart_Add_OneHour.
Qed.

(** Within the hour the rounded minute count reaches [Add] as that
    many nanoseconds, and the whole seconds stay those of the start of
    the current hour. *)
Lemma FirstCheckTime_min_hour_start (rt : Z) (now : Time) :
  60 <= rt < 3600 ->
  Time_Minute now + Z.quot rt 60 < 60 ->
  FirstCheckTime rt now = Time_Unix (HourStart now).
Proof.
  intros H Hn. unfold FirstCheckTime, Interval.
  rewrite level_min by assumption.
  destruct (Z.leb_spec 60 (Time_Minute now + Z.quot rt 60)); [lia|].
  pose proof (Time_Minute_range now) as Hm.
  assert (Hq : 1 <= Z.quot rt 60 < 60).
  { rewrite Z.quot_div_nonneg by lia. Z.div_mod_to_equations. lia. }
  pose proof (Duration_Round_small
                (Time_Minute now + Z.quot rt 60) (Z.quot rt 60)
                ltac:(lia) ltac:(lia)) as Hr.
  apply Unix_HourStart_Add_small. lia.
Qed.

Lemma FirstCheckTime_min_le_now (rt : Z) (now : Time) :
  60 <= rt < 3600 ->
  Time_Minute now + Z.quot rt 60 < 60 ->
  FirstCheckTime rt now <= Time_Unix now.
Proof.
  intros H Hn. rewrite FirstCheckTime_min_hour_start by assumption.
  apply Unix_HourStart_le.
Qed.

Lemma FirstCheckTime_sec (rt : Z) (now : Time) :
  rt < 60 ->
  minInt64 <= Time_Unix now + rt <= maxInt64 ->
  FirstCheckTime rt now = Time_Unix now + rt.
Proof.
  intros H Hb. unfold FirstCheckTime, Interval.
  rewrite level_sec by assumption.
  unfold wrap64, minInt64, maxInt64 in *. rewrite Z.mod_small; lia.
Qed.

(** The hour-level deadline, and the minute-level one that would
    cross the hour, are the start of the next calendar hour. *)
Lemma Unix_nextHourStart (now : Time) :
  Time_Unix (documented.nextHourStart now) = Time_Unix (HourStart now) + 3600.
Proof.
  unfold documented.nextHourStart, HourStart, Time_Location.
  rewrite !Time_Unix_Date by lia. lia.
Qed.

Lemma FirstCheckTime_next_hour (rt : Z) (now : Time) :
  3600 <= rt < 86400
  \/ (60 <= rt < 3600 /\ 60 <= Time_Minute now + Z.quot rt 60) ->
  FirstCheckTime rt now = Time_Unix (documented.nextHourStart now).
Proof.
  rewrite Unix_nextHourStart. intros [H|[H Hn]].
  - now apply FirstCheckTime_hour.
  - now apply FirstCheckTime_min_next_hour.
Qed.

(** Day and hour deadlines are not before [now]. *)
Lemma FirstCheckTime_day_ge_now (rt : Z) (now : Time) :
  86400 <= rt -> Time_Unix now <= FirstCheckTime rt now.
Proof.
  intros H. rewrite FirstCheckTime_day by assumption. rewrite Unix_DayStart.
  pose proof (localSec_split now) as Hs. unfold localSec in Hs at 1.
  pose proof (Time_Hour_range now). pose proof (Time_Minute_range now).
  pose proof (Time_Second_range now). lia.
Qed.

Lemma FirstCheckTime_hour_ge_now (rt : Z) (now : Time) :
  3600 <= rt < 86400 -> Time_Unix now < FirstCheckTime rt now.
Proof.
  intros H. rewrite FirstCheckTime_hour by assumption. rewrite Unix_HourStart.
  pose proof (Time_Minute_range now). pose proof (Time_Second_range now). lia.
Qed.

(** C1.  With a fifteen-minute interval and the clock at 2022-04-20
    19:20:30 UTC, [FirstCheckTime] returns 19:00:00 of that day, the
    start of the hour that is already running: the deadline is twenty
    minutes and thirty seconds before [now], and it is not the rounded
    minute 19:30:00. *)
Theorem FirstCheckTime_Every15Min_before_now :
  let now := time.Unix 1650482430 0 in
  Time_Hour now = 19 /\ Time_Minute now = 20 /\ Time_Second now = 30 /\
  level Every15Min = levelMin /\
  FirstCheckTime Every15Min now = 1650481200 /\
  FirstCheckTime Every15Min now < Time_Unix now /\
  documented.minuteDeadline Every15Min now = 1650481200 + 30 * 60.
Proof. vm_compute. repeat split; reflexivity. Qed.

(** C2.  With a five-minute interval and the clock at 19:37:10,
    the minute advanced by the interval is 42 and rounds to 40, the
    case of the comment in the code; [FirstCheckTime] returns 19:00:00,
    not 19:40:00. *)
Theorem FirstCheckTime_5min_drops_rounded_minute :
  let now := time.Unix 1650483430 0 in
  Time_Hour now = 19 /\ Time_Minute now = 37 /\
  documented.roundedMinute 300 now = 40 /\
  documented.minuteDeadline 300 now = Time_Unix (HourStart now) + 40 * 60 /\
  FirstCheckTime 300 now = Time_Unix (HourStart now) /\
  FirstCheckTime 300 now <> documented.minuteDeadline 300 now.
Proof. vm_compute. repeat split; try reflexivity. discriminate. Qed.




(** C4.  The level of a [RotateTime] follows from the size of
    the interval alone: a day or more of seconds is day level, an hour
    or more hour level, a minute or more minute level, anything less
    second level. *)
Theorem level_by_magnitude (rt : Z) :
  (86400 <= rt -> level rt = levelDay)
  /\ (3600 <= rt < 86400 -> level rt = levelHour)
  /\ (60 <= rt < 3600 -> level rt = levelMin)
  /\ (rt < 60 -> level rt = levelSec).
Proof.
  repeat split; intros H;
    [apply level_day | apply level_hour | apply level_min | apply level_sec];
    assumption.
Qed.

Lemma level_by_magnitude_witness :
  level EveryDay = levelDay /\ level EveryHour = levelHour
  /\ level Every15Min = levelMin /\ level EverySecond = levelSec.
Proof.
  split; [|split; [|split]].
  - apply (proj1 (level_by_magnitude EveryDay)).
    vm_compute. discriminate.
  - apply (proj1 (proj2 (level_by_magnitude EveryHour))).
    vm_compute. split; [discriminate | reflexivity].
  - apply (proj1 (proj2 (proj2 (level_by_magnitude Every15Min)))).
    vm_compute. split; [discriminate | reflexivity].
  - apply (proj2 (proj2 (proj2 (level_by_magnitude EverySecond)))).
    reflexivity.
Defined.

(** C5.  [TimeFormat] gives the layout of the level: year, month
    and day for day level; these and the hour (with a literal "00") for
    hour level; these and the minute for minute level; these and the
    second for second level. *)
Theorem TimeFormat_by_level (rt : Z) :
  match level rt with
  | levelDay =>
      TimeFormat rt = "20060102"%string
      /\ fields (TimeFormat rt) = [stdLongYear; stdZeroMonth; stdZeroDay]
  | levelHour =>
      TimeFormat rt = "20060102_1500"%string
      /\ fields (TimeFormat rt)
         = [stdLongYear; stdZeroMonth; stdZeroDay; stdHour]
  | levelMin =>
      TimeFormat rt = "20060102_1504"%string
      /\ fields (TimeFormat rt)
         = [stdLongYear; stdZeroMonth; stdZeroDay; stdHour; stdZeroMinute]
  | levelSec =>
      TimeFormat rt = "20060102_150405"%string
      /\ fields (TimeFormat rt)
         = [stdLongYear; stdZeroMonth; stdZeroDay; stdHour; stdZeroMinute;
            stdZeroSecond]
  end.
Proof.
  unfold TimeFormat. destruct (level rt); split; reflexivity.
Qed.

End rotation_facts.

(** ** Backup files: order and enumeration *)

Module scan_facts.
Import time rotatefile.

Lemma Less_lookup (fis : modTimeFInfos) (i j : nat) (a b : fileInfo) :
  fis !! i = Some a -> fis !! j = Some b ->
  Less fis i j = Some (mtime a <? mtime b).
Proof. intros Ha Hb. unfold Less. rewrite Ha, Hb. reflexivity. Qed.

(** The ordering [sort.Sort] asks of [Less]: no element is before
    itself, and both "before" and "neither before the other" carry over
    a middle element. *)
Lemma Less_transitive_ordering (fis : modTimeFInfos) (i j k : nat) :
  Less fis i i <> Some true
  /\ (Less fis i j = Some true -> Less fis j k = Some true ->
      Less fis i k = Some true)
  /\ (Less fis i j = Some false -> Less fis j k = Some false ->
      Less fis i k = Some false).
Proof.
  unfold Less.
  destruct (fis !! i) as [a|], (fis !! j) as [b|], (fis !! k) as [c|];
    repeat split; try discriminate; intros H1; try intros H2;
    injection H1 as H1; try injection H2 as H2; try f_equal;
    unfold Time_After in *; lia.
Qed.

(** Below [n], every adjacent pair is in order. *)
Lemma sortedDownFrom_adjacent (fis : modTimeFInfos) (n k : nat)
    (a b : fileInfo) :
  sort.sortedDownFrom fis n = true ->
  (k < n)%nat -> fis !! k = Some a -> fis !! S k = Some b ->
  mtime a <= mtime b.
Proof.
  induction n as [|n IH]; intros Hs Hk Ha Hb; [lia|].
  cbn [sort.sortedDownFrom sort.Less modTimeFInfos_Interface] in Hs.
  destruct (decide (k = n)) as [->|Hne].
  - rewrite (Less_lookup fis (S n) n b a Hb Ha) in Hs.
    destruct (Z.ltb_spec (mtime b) (mtime a)); [discriminate | lia].
  - apply IH; [|lia|assumption..].
    destruct (Less fis (S n) n) as [[|]|]; [discriminate | assumption..].
Qed.

Lemma IsSorted_nondecreasing (fis : modTimeFInfos) :
  sort.IsSorted fis = true ->
  forall (d i : nat) (a b : fileInfo),
    fis !! i = Some a -> fis !! (i + d)%nat = Some b -> mtime a <= mtime b.
Proof.
  intros Hs. unfold sort.IsSorted in Hs.
  cbn [sort.Len modTimeFInfos_Interface] in Hs. unfold Len in Hs.
  induction d as [|d IH]; intros i a b Ha Hb.
  - rewrite Nat.add_0_r in Hb. rewrite Ha in Hb. injection Hb as ->. lia.
  - replace (i + S d)%nat with (S (i + d)) in Hb by lia.
    pose proof (lookup_lt_Some _ _ _ Hb) as Hlt.
    destruct (lookup_lt_is_Some_2 fis (i + d)%nat ltac:(lia)) as [c Hc].
    specialize (IH i a c Ha Hc).
    pose proof (sortedDownFrom_adjacent fis (length fis - 1) (i + d) c b
                  Hs ltac:(lia) Hc Hb).
    lia.
Qed.

(** C7.  [Less(i, j)] holds exactly when the file at [i] was
    modified strictly before the file at [j]; it is a transitive
    ordering, as [sort.Sort] asks; and a list that is sorted as [Less]
    determines has its modification times in non-decreasing order. *)
Theorem Less_oldest_first (fis : modTimeFInfos) :
  (forall (i j : nat) (a b : fileInfo),
      fis !! i = Some a -> fis !! j = Some b ->
      exists r : bool,
        Less fis i j = Some r /\ (r = true <-> mtime a < mtime b))
  /\ (forall i j k : nat,
        Less fis i i <> Some true
        /\ (Less fis i j = Some true -> Less fis j k = Some true ->
            Less fis i k = Some true)
        /\ (Less fis i j = Some false -> Less fis j k = Some false ->
            Less fis i k = Some false))
  /\ (sort.IsSorted fis = true ->
      forall (i j : nat) (a b : fileInfo),
        (i <= j)%nat -> fis !! i = Some a -> fis !! j = Some b ->
        mtime a <= mtime b).
Proof.
  split; [|split].
  - intros i j a b Ha Hb. exists (mtime a <? mtime b). split.
    + apply Less_lookup; assumption.
    + apply Z.ltb_lt.
  - apply Less_transitive_ordering.
  - intros Hs i j a b Hij Ha Hb.
    apply (IsSorted_nondecreasing fis Hs (j - i) i a b Ha).
    replace (i + (j - i))%nat with j by lia. assumption.
Qed.

Lemma Less_oldest_first_witness :
  sort.IsSorted examples.threeBackups = true
  /\ Less examples.threeBackups 0 2 = Some true
  /\ Less examples.threeBackups 0 1 = Some false
  /\ 1650400000000000000 <= 1650482430000000000.
Proof.
  pose proof (Less_oldest_first examples.threeBackups)
    as (Hless & Horder & Hsorted).
  assert (Hs : sort.IsSorted examples.threeBackups = true) by reflexivity.
  split; [exact Hs|]. split; [reflexivity|]. split; [reflexivity|].
  exact (Hsorted Hs 0%nat 2%nat _ _ ltac:(lia) eq_refl eq_refl).
Defined.

(** What [findFilesInDir] does when the directory cannot be scanned:
    the handler is not called in any of the three cases; the error of
    [os.Stat] and that of [os.Open] are returned. *)

Lemma findFilesInDir_Stat_error {S : Type} (dir : string)
    (handleFn : handleFunc S) (filters : list filterFunc)
    (wd : os.world) (s : S) (e : error) :
  os.Stat dir wd = Err e ->
  findFilesInDir dir handleFn filters wd s = (s, Some e).
Proof. intros H. unfold findFilesInDir. rewrite H. reflexivity. Qed.

Lemma findFilesInDir_not_dir {S : Type} (dir : string)
    (handleFn : handleFunc S) (filters : list filterFunc)
    (wd : os.world) (s : S) (fi : os.FileInfo) :
  os.Stat dir wd = Ok fi -> os.IsDir fi = false ->
  findFilesInDir dir handleFn filters wd s = (s, None).
Proof. intros H Hd. unfold findFilesInDir. rewrite H, Hd. reflexivity. Qed.

Lemma findFilesInDir_Open_error {S : Type} (dir : string)
    (handleFn : handleFunc S) (filters : list filterFunc)
    (wd : os.world) (s : S) (fi : os.FileInfo) (e : error) :
  os.Stat dir wd = Ok fi -> os.IsDir fi = true -> os.Open dir wd = Err e ->
  findFilesInDir dir handleFn filters wd s = (s, Some e).
Proof.
  intros H Hd Ho. unfold findFilesInDir. rewrite H, Hd, Ho. reflexivity.
Qed.

(** C8.  For a directory that does not exist, and for one that may
    not be read, [findFilesInDir] leaves the handler uncalled and
    returns the error of [os.Stat], respectively of [os.Open]: the
    failure reaches the caller. *)
Theorem findFilesInDir_returns_scan_error :
  let record : handleFunc (list string) :=
    fun fPath _ seen => (fPath :: seen, None) in
  findFilesInDir "/var/log/missing/" record [] examples.dirWorld []
  = ([], Some ENOENT)
  /\ findFilesInDir "/var/log/locked/" record [] examples.dirWorld []
     = ([], Some EACCES)
  /\ findFilesInDir "/var/log/app/" record [] examples.dirWorld []
     = (["/var/log/app/app.log.1"%string], None).
Proof. vm_compute. repeat split; reflexivity. Qed.

End scan_facts.

(** ** Record data *)

Module record_facts.
Import slog.

Section any.
Context {any : Type}.
Implicit Types (r : Record any) (k : string) (v : any).

(** With a map in place the value is stored. *)
Lemma AddValue_stores r k v (data : M any) :
  Data r = Some data ->
  Data (AddValue r k v) = Some (<[k := v]> data)
  /\ (<[k := v]> data) !! k = Some v.
Proof.
  intros H. unfold AddValue. rewrite H. cbn. split; [reflexivity|].
  apply lookup_insert_eq.
Qed.

(** [AddField] and [SetExtraValue] store the value with and without
    a map in place. *)
Lemma AddField_stores r k v :
  exists fields : M any,
    Fields (AddField r k v) = Some fields /\ fields !! k = Some v.
Proof.
  unfold AddField. destruct (Fields r) as [m|] eqn:E; cbn.
  - rewrite E. cbn. eexists. split; [reflexivity|].
    apply lookup_insert_eq.
  - eexists. split; [reflexivity|]. apply lookup_insert_eq.
Qed.

Lemma SetExtraValue_stores r k v :
  exists extra : M any,
    Extra (SetExtraValue r k v) = Some extra /\ extra !! k = Some v.
Proof.
  unfold SetExtraValue. destruct (Extra r) as [m|] eqn:E; cbn.
  - rewrite E. cbn. eexists. split; [reflexivity|].
    apply lookup_insert_eq.
  - eexists. split; [reflexivity|]. apply lookup_insert_eq.
Qed.

(** C10.  On a record whose [Data] is nil, [AddValue] makes the
    map and returns: [Data] is then the empty map, and the key is
    not in it. *)
Theorem AddValue_nil_Data_stores_nothing r k v :
  Data (AddValue (setData r None) k v) = Some ∅
  /\ (Data (AddValue (setData r None) k v) ≫= (fun data => data !! k))
     = None.
Proof. split; reflexivity. Qed.

End any.

End record_facts.

(** ** The file system *)

Module os_facts.
Import os observe.

Lemma sameBut_refl (p : string) (wd : world) : sameBut p wd wd.
Proof. split; [reflexivity|]. intros q _. reflexivity. Qed.

Lemma sameBut_trans (p : string) (wd1 wd2 wd3 : world) :
  sameBut p wd1 wd2 -> sameBut p wd2 wd3 -> sameBut p wd1 wd3.
Proof.
  intros [L1 H1] [L2 H2]. split; [congruence|].
  intros q Hq. rewrite (H2 q Hq). apply H1, Hq.
Qed.

Lemma sameBut_resolve (p : string) (wd wd' : world) (name : string) :
  sameBut p wd wd' -> resolve wd' name = resolve wd name.
Proof. intros [L _]. unfold resolve. now rewrite L. Qed.

Lemma sameBut_content (p q : string) (wd wd' : world) :
  sameBut p wd wd' -> q <> p -> content wd' q = content wd q.
Proof. intros [_ Hs] Hq. unfold content. now rewrite (Hs q Hq). Qed.

Lemma appended_refl (p : string) (wd : world) : appended p wd wd.
Proof.
  split; [apply sameBut_refl|]. exists []. rewrite app_nil_r.
  split; [reflexivity | cbn; lia].
Qed.

Lemma appended_trans (p : string) (wd1 wd2 wd3 : world) :
  appended p wd1 wd2 -> appended p wd2 wd3 -> appended p wd1 wd3.
Proof.
  intros [S1 (s1 & E1 & F1)] [S2 (s2 & E2 & F2)].
  split; [eapply sameBut_trans; eassumption|].
  exists (s1 ++ s2). rewrite E2, E1, <- app_assoc, length_app.
  split; [reflexivity | lia].
Qed.

(** No file has grown by more than the device has given. *)
Lemma appended_length (p q : string) (wd wd' : world) :
  appended p wd wd' ->
  (free wd' <= free wd)%nat
  /\ (length (content wd q) <= length (content wd' q))%nat
  /\ (length (content wd' q) + free wd'
      <= length (content wd q) + free wd)%nat.
Proof.
  intros [Hs (sfx & E & F)]. destruct (decide (q = p)) as [->|Hq].
  - rewrite E, length_app. lia.
  - rewrite (sameBut_content _ _ _ _ Hs Hq). lia.
Qed.

Lemma File_Write_sameBut (f : File) (b : list Z) (wd : world) :
  sameBut (fd_path f) wd (File_Write f b wd).1.
Proof.
  unfold File_Write.
  destruct (files wd !! fd_path f) as [[fl|d]|]; try apply sameBut_refl.
  destruct b; [apply sameBut_refl|]. split; [reflexivity|].
  intros q Hq. cbn. apply lookup_insert_ne. congruence.
Qed.

(** A write that reports no error has put all its bytes at the end of
    the file. *)
Lemma File_Write_ok (f : File) (b : list Z) (wd wd' : world) :
  File_Write f b wd = (wd', None) ->
  content wd' (fd_path f) = content wd (fd_path f) ++ b.
Proof.
  unfold File_Write, content.
  destruct (files wd !! fd_path f) as [[fl|d]|] eqn:E; [|discriminate..].
  destruct b as [|x b].
  - intros [= <-]. rewrite E. now rewrite app_nil_r.
  - remember (x :: b) as xb eqn:Exb.
    remember (Nat.min (length xb) (free wd)) as n eqn:En.
    destruct (Nat.ltb_spec n (length xb)) as [Hlt|Hge]; [discriminate|].
    intros [= <-]. cbn [files]. rewrite lookup_insert_eq. cbn [f_data].
    rewrite take_ge by exact Hge. reflexivity.
Qed.

(** Whatever a write reports, it has only put bytes at the end of its
    file, each at the cost of a free byte of the device. *)
Lemma File_Write_appended (f : File) (b : list Z) (wd : world) :
  appended (fd_path f) wd (File_Write f b wd).1.
Proof.
  split; [apply File_Write_sameBut|].
  unfold File_Write, content.
  destruct (files wd !! fd_path f) as [[fl|d]|] eqn:E; cbn [fst];
    rewrite ?E; try (exists []; rewrite app_nil_r; cbn; split; [easy|lia]).
  destruct b as [|x b]; cbn [fst].
  - rewrite E. exists []. rewrite app_nil_r. cbn. split; [easy|lia].
  - cbn [files free]. rewrite lookup_insert_eq. cbn [f_data].
    eexists. split; [reflexivity|]. rewrite length_take. lia.
Qed.

Lemma OpenAppend_sameBut (name : string) (wd : world) :
  sameBut (resolve wd name) wd (OpenAppend name wd).1.
Proof.
  unfold OpenAppend.
  destruct (nodeAt wd name) as [[fl|d]|]; [destruct (f_writable fl)| |];
    try apply sameBut_refl.
  split; [reflexivity|]. intros q Hq. cbn. apply lookup_insert_ne.
  congruence.
Qed.

(** Opening for append leaves every existing file and directory as it
    is. *)
Lemma OpenAppend_existing (name q : string) (wd : world) :
  files wd !! q <> None ->
  files (OpenAppend name wd).1 !! q = files wd !! q.
Proof.
  intros Hq. destruct (decide (q = resolve wd name)) as [->|Hne].
  - unfold OpenAppend, nodeAt.
    destruct (files wd !! resolve wd name) as [[fl|d]|] eqn:E;
      [destruct (f_writable fl)| |]; cbn [fst]; try assumption.
    congruence.
  - now apply OpenAppend_sameBut.
Qed.

(** It adds no byte to any file, and takes none from the device. *)
Lemma OpenAppend_content (name q : string) (wd : world) :
  content (OpenAppend name wd).1 q = content wd q.
Proof.
  destruct (decide (q = resolve wd name)) as [->|Hne].
  - unfold OpenAppend, nodeAt, content.
    destruct (files wd !! resolve wd name) as [[fl|d]|] eqn:E;
      [destruct (f_writable fl)| |]; cbn [fst]; rewrite ?E;
      try reflexivity.
    cbn [files]. now rewrite lookup_insert_eq.
  - exact (sameBut_content _ _ _ _ (OpenAppend_sameBut name wd) Hne).
Qed.

Lemma OpenAppend_free (name : string) (wd : world) :
  free (OpenAppend name wd).1 = free wd.
Proof.
  unfold OpenAppend.
  destruct (nodeAt wd name) as [[fl|d]|]; [destruct (f_writable fl)| |];
    reflexivity.
Qed.

Lemma OpenAppend_Ok (name : string) (wd wd' : world) (f : File) :
  OpenAppend name wd = (wd', Ok f) -> f = mkHandle name (resolve wd name).
Proof.
  unfold OpenAppend.
  destruct (nodeAt wd name) as [[fl|d]|]; [destruct (f_writable fl)| |];
    congruence.
Qed.

Lemma OpenRead_Ok (name : string) (wd : world) (f : File) :
  OpenRead name wd = Ok f ->
  f = mkHandle name (resolve wd name) /\ nodeAt wd name <> None.
Proof.
  unfold OpenRead.
  destruct (nodeAt wd name) as [[fl|d]|];
    [destruct (f_readable fl)|destruct (d_readable d)|]; try discriminate;
    intros [= <-]; split; congruence.
Qed.

End os_facts.

(** ** The gzip writer *)

Module gzip_facts.
Import os os_facts gzip observe.

Section writer.
Context `{Flate}.

Lemma writeString_appended (z : Writer) (s : string) (wd : world) :
  appended (fd_path (w z)) wd (writeString z s wd).1.
Proof.
  unfold writeString. destruct (latin1 (bytesOfString s)) as [b|];
    [|apply appended_refl].
  pose proof (File_Write_appended (w z) b wd) as H1.
  destruct (File_Write (w z) b wd) as [wd1 [e|]]; [exact H1|].
  eapply appended_trans; [exact H1|]. apply File_Write_appended.
Qed.

Lemma writeString_ok (z : Writer) (s : string) (wd wd' : world) :
  writeString z s wd = (wd', None) ->
  exists lat : list Z,
    latin1 (bytesOfString s) = Some lat
    /\ content wd' (fd_path (w z))
       = content wd (fd_path (w z)) ++ lat ++ [0].
Proof.
  unfold writeString. destruct (latin1 (bytesOfString s)) as [b|];
    [|discriminate].
  destruct (File_Write (w z) b wd) as [wd1 [e|]] eqn:E1; [discriminate|].
  intros E2. exists b. split; [reflexivity|].
  rewrite (File_Write_ok _ _ _ _ E2), (File_Write_ok _ _ _ _ E1).
  now rewrite <- app_assoc.
Qed.

(** [Write] in two steps: the header, which leaves [wd1] and [z1], and
    the payload. *)
Lemma Write_steps (z : Writer) (p : list Z) (wd : world) :
  err z = None ->
  exists (wd1 : world) (z1 : Writer),
    Write z p wd
    = match err z1 with
      | Some e => (wd1, z1, Some e)
      | None =>
          let z2 := setPayload z1 (payload z1 ++ p) in
          let '(c, out) := flate.Write (compressor z2) p in
          let '(wd2, e) := File_Write (w z2) out wd1 in
          (wd2, setErr (setCompressor z2 c) e, e)
      end
    /\ appended (fd_path (w z)) wd wd1
    /\ w z1 = w z /\ Name z1 = Name z /\ ModTime z1 = ModTime z
    /\ closed z1 = closed z /\ compressor z1 = compressor z
    /\ payload z1 = payload z
    /\ (wroteHeader z = true -> wroteHeader z1 = true)
    /\ (err z1 = None ->
        wroteHeader z1 = true
        /\ exists hb : list Z,
            (if wroteHeader z then hb = [] else headerBytes z = Some hb)
            /\ content wd1 (fd_path (w z))
               = content wd (fd_path (w z)) ++ hb).
Proof.
  intros Ez. unfold Write. rewrite Ez. destruct (wroteHeader z) eqn:Hw.
  - exists wd, z. split; [reflexivity|]. split; [apply appended_refl|].
    repeat (split; [easy|]). exists []. now rewrite app_nil_r.
  - cbv zeta. cbn [w Name setWroteHeader].
    change (header10 (setWroteHeader z)) with (header10 z).
    pose proof (File_Write_appended (w z) (header10 z) wd) as H1.
    destruct (File_Write (w z) (header10 z) wd) as [wd1 [e1|]] eqn:E1.
    + do 2 eexists. split; [reflexivity|]. split; [exact H1|].
      cbn. repeat (split; [easy|]). discriminate.
    + apply File_Write_ok in E1. unfold headerBytes.
      destruct (String.eqb (Name z) EmptyString) eqn:En.
      * do 2 eexists. split; [reflexivity|]. split; [exact H1|].
        cbn. repeat (split; [easy|]).
        exists (header10 z). split; [reflexivity | exact E1].
      * pose proof (writeString_appended (setWroteHeader z) (Name z) wd1)
          as H2.
        cbn [w setWroteHeader] in H2.
        destruct (writeString (setWroteHeader z) (Name z) wd1)
          as [wd2 e2] eqn:E2.
        do 2 eexists. split; [reflexivity|].
        split; [eapply appended_trans; [exact H1 | exact H2]|].
        cbn. split; [reflexivity|]. split; [reflexivity|].
        split; [reflexivity|]. split; [reflexivity|]. split; [reflexivity|].
        split; [reflexivity|]. split; [reflexivity|].
        intros ->. split; [reflexivity|].
        apply writeString_ok in E2. destruct E2 as [lat [Hl Hd]].
        cbn [w setWroteHeader] in Hd. rewrite Hl.
        exists (header10 z ++ lat ++ [0]). split; [reflexivity|].
        rewrite Hd, E1. now rewrite <- app_assoc.
Qed.

Lemma Write_appended (z : Writer) (p : list Z) (wd : world) :
  appended (fd_path (w z)) wd (Write z p wd).1.1.
Proof.
  destruct (err z) eqn:Ez.
  - unfold Write. rewrite Ez. exact (appended_refl _ _).
  - destruct (Write_steps z p wd Ez) as (wd1 & z1 & -> & H1 & Hw & _).
    destruct (err z1); [exact H1|].
    cbn [compressor payload w setPayload].
    destruct (flate.Write (compressor z1) p) as [c out].
    pose proof (File_Write_appended (w z1) out wd1) as H2. rewrite Hw in *.
    destruct (File_Write (w z) out wd1) as [wd2 e2]. cbn in *.
    eapply appended_trans; eassumption.
Qed.

(** [Write] leaves the destination, the name, the time and [closed]
    of the writer as they are, and a header that is out stays out. *)
Lemma Write_fields (z z' : Writer) (p : list Z) (wd wd' : world)
    (e : option error) :
  Write z p wd = (wd', z', e) ->
  w z' = w z /\ Name z' = Name z /\ ModTime z' = ModTime z
  /\ closed z' = closed z
  /\ (wroteHeader z = true -> wroteHeader z' = true).
Proof.
  destruct (err z) eqn:Ez.
  - unfold Write. rewrite Ez. intros [= <- <- <-]. tauto.
  - destruct (Write_steps z p wd Ez)
      as (wd1 & z1 & -> & _ & Hw & Hn & Hm & Hc & _ & _ & Hh & _).
    destruct (err z1); [intros [= <- <- <-]; tauto|].
    cbn [compressor payload w setPayload].
    destruct (flate.Write (compressor z1) p) as [c out].
    destruct (File_Write (w z1) out wd1) as [wd2 e2].
    intros [= <- <- <-]. cbn. tauto.
Qed.

(** The error [Write] reports is the one the writer keeps. *)
Lemma Write_err (z z' : Writer) (p : list Z) (wd wd' : world)
    (e : option error) :
  Write z p wd = (wd', z', e) -> err z' = e.
Proof.
  destruct (err z) eqn:Ez.
  - unfold Write. rewrite Ez. intros [= <- <- <-]. exact Ez.
  - destruct (Write_steps z p wd Ez) as (wd1 & z1 & -> & _).
    destruct (err z1) eqn:Ez1; [intros [= <- <- <-]; exact Ez1|].
    cbn [compressor payload w setPayload].
    destruct (flate.Write (compressor z1) p) as [c out].
    destruct (File_Write (w z1) out wd1) as [wd2 e2].
    intros [= <- <- <-]. reflexivity.
Qed.

(** A [Write] that reports no error: the header is out, put at the end
    of the destination by this call if it was not out before; the
    bytes are in the payload, and what the compressor has put out for
    them is at the end of the destination. *)
Lemma Write_ok (z z' : Writer) (p : list Z) (wd wd' : world) :
  Write z p wd = (wd', z', None) ->
  err z = None /\ err z' = None /\ wroteHeader z' = true
  /\ payload z' = payload z ++ p
  /\ compressor z' = (flate.Write (compressor z) p).1
  /\ exists hb : list Z,
      (if wroteHeader z then hb = [] else headerBytes z = Some hb)
      /\ content wd' (fd_path (w z))
         = content wd (fd_path (w z)) ++ hb
           ++ (flate.Write (compressor z) p).2.
Proof.
  destruct (err z) eqn:Ez; [unfold Write; rewrite Ez; discriminate|].
  destruct (Write_steps z p wd Ez)
    as (wd1 & z1 & -> & _ & Hw & _ & _ & _ & Hco & Hp & _ & Hhb).
  destruct (err z1) eqn:Ez1; [discriminate|].
  cbn [compressor payload w setPayload]. rewrite Hco, Hp, Hw.
  destruct (flate.Write (compressor z) p) as [c out].
  destruct (File_Write (w z) out wd1) as [wd2 e2] eqn:E2.
  intros [= <- <- ->]. apply File_Write_ok in E2. cbn.
  destruct (Hhb eq_refl) as (Hh & hb & Hcase & Hd).
  repeat (split; [easy|]). exists hb. split; [exact Hcase|].
  rewrite E2, Hd. now rewrite <- app_assoc.
Qed.

Lemma Close_appended (z : Writer) (wd : world) :
  appended (fd_path (w z)) wd (Close z wd).1.1.
Proof.
  unfold Close. destruct (err z); [exact (appended_refl _ _)|].
  destruct (closed z); [exact (appended_refl _ _)|].
  assert (Hh : exists wd1 z1 e1,
             (if wroteHeader (setClosed z) then (wd, setClosed z, None)
              else Write (setClosed z) [] wd) = (wd1, z1, e1)
             /\ appended (fd_path (w z)) wd wd1 /\ w z1 = w z).
  { destruct (wroteHeader (setClosed z)).
    - do 3 eexists. split; [reflexivity|].
      split; [apply appended_refl|easy].
    - pose proof (Write_appended (setClosed z) [] wd) as Hs.
      destruct (Write (setClosed z) [] wd) as [[wd1 z1] e1] eqn:E.
      do 3 eexists. split; [reflexivity|]. split; [exact Hs|].
      apply Write_fields in E. tauto. }
  destruct Hh as (wd1 & z1 & e1 & -> & Hs1 & Hw1).
  destruct (err z1); [exact Hs1|]. rewrite Hw1.
  pose proof (File_Write_appended (w z) (flate.Close (compressor z1)) wd1)
    as Hs2.
  destruct (File_Write (w z) (flate.Close (compressor z1)) wd1)
    as [wd2 [e2|]].
  - cbn. eapply appended_trans; eassumption.
  - match goal with |- context [File_Write (w z) ?b wd2] =>
      pose proof (File_Write_appended (w z) b wd2) as Hs3;
      destruct (File_Write (w z) b wd2) as [wd3 e3] end.
    cbn. eapply appended_trans; [|exact Hs3].
    eapply appended_trans; eassumption.
Qed.

(** A first [Close] that reports no error: the header if it was not
    out, the rest of the compressed stream and the trailer are at the
    end of the destination. *)
Lemma Close_ok (z z' : Writer) (wd wd' : world) :
  closed z = false ->
  Close z wd = (wd', z', None) ->
  exists hb : list Z,
    (if wroteHeader z then hb = [] else headerBytes z = Some hb)
    /\ content wd' (fd_path (w z))
       = content wd (fd_path (w z)) ++ hb
         ++ flate.Close (compressor z) ++ trailer (payload z).
Proof.
  intros Hc. unfold Close. destruct (err z) eqn:Ez; [discriminate|].
  rewrite Hc.
  assert (Hh : exists wd1 z1 e1 hb,
             (if wroteHeader (setClosed z) then (wd, setClosed z, None)
              else Write (setClosed z) [] wd) = (wd1, z1, e1)
             /\ w z1 = w z
             /\ (err z1 = None ->
                 (if wroteHeader z then hb = [] else headerBytes z = Some hb)
                 /\ payload z1 = payload z /\ compressor z1 = compressor z
                 /\ content wd1 (fd_path (w z))
                    = content wd (fd_path (w z)) ++ hb)).
  { cbn [wroteHeader setClosed]. destruct (wroteHeader z) eqn:Hw.
    - exists wd, (setClosed z), None, []. split; [reflexivity|].
      split; [reflexivity|]. intros _. rewrite app_nil_r. tauto.
    - destruct (Write (setClosed z) [] wd) as [[wd1 z1] e1] eqn:E.
      pose proof (Write_fields _ _ _ _ _ _ E) as Hf.
      destruct e1 as [e1|].
      + exists wd1, z1, (Some e1), []. split; [reflexivity|].
        split; [tauto|]. intros Hz1. exfalso.
        apply Write_err in E. congruence.
      + apply Write_ok in E. cbn [wroteHeader setClosed] in E.
        rewrite Hw in E.
        destruct E as (_ & _ & _ & Hp & Hco & hb & Hhb & Hd).
        exists wd1, z1, None, hb. split; [reflexivity|]. split; [tauto|].
        intros _. rewrite app_nil_r in Hp. cbn in Hp, Hco, Hd.
        rewrite app_nil_r in Hd. tauto. }
  destruct Hh as (wd1 & z1 & e1 & hb & -> & Hw1 & Hok).
  destruct (err z1) eqn:Ez1; [discriminate|].
  destruct (Hok eq_refl) as (Hhb & Hp & Hco & Hd). rewrite Hw1, Hp, Hco.
  destruct (File_Write (w z) (flate.Close (compressor z)) wd1)
    as [wd2 [e2|]] eqn:E2; [discriminate|].
  match goal with |- context [File_Write (w z) ?b wd2] =>
    destruct (File_Write (w z) b wd2) as [wd3 e3] eqn:E3 end.
  intros [= <- <- ->]. exists hb. split; [exact Hhb|].
  rewrite (File_Write_ok _ _ _ _ E3), (File_Write_ok _ _ _ _ E2), Hd.
  now rewrite <- !app_assoc.
Qed.

End writer.

End gzip_facts.

(** ** The gzip header read back *)

Module header_facts.
Import gzip.

Lemma stringOfBytes_bytesOfString (s : string) :
  stringOfBytes (bytesOfString s) = s.
Proof.
  unfold stringOfBytes, bytesOfString. rewrite map_map.
  rewrite <- (string_of_list_ascii_of_string s) at 2. f_equal.
  rewrite <- (map_id (list_ascii_of_string s)) at 2.
  apply map_ext. intros c. unfold asciiOfByte, byteOfAscii.
  rewrite N2Z.id. apply ascii_N_embedding.
Qed.

Lemma getUint32_putUint32 (v : Z) :
  0 <= v < 2 ^ 32 ->
  match putUint32 v with
  | [b0; b1; b2; b3] => getUint32 b0 b1 b2 b3 = v
  | _ => False
  end.
Proof.
  intros Hv. unfold putUint32, getUint32.
  change (2 ^ 32) with 4294967296 in Hv. Z.div_mod_to_equations. lia.
Qed.

Lemma mtimeField_range (t : time.Time) : 0 <= mtimeField t < 2 ^ 32.
Proof.
  unfold mtimeField, uint32. destruct (time.Time_After _ _); [|lia].
  apply Z.mod_pos_bound. lia.
Qed.

(** A two-byte sequence for a rune from 0x80 to 0xff, and back. *)
Lemma latin1_pair (b c : Z) :
  b = 194 \/ b = 195 -> 128 <= c <= 191 ->
  let v := Z.lor (Z.shiftl (Z.land b 31) 6) (Z.land c 63) in
  (v <? 128) = false
  /\ Z.lor 192 (Z.shiftr v 6) = b /\ Z.lor 128 (Z.land v 63) = c
  /\ v <> 0.
Proof.
  intros Hb Hc.
  assert (Hn : exists n : nat, c = 128 + Z.of_nat n /\ (n < 64)%nat).
  { exists (Z.to_nat (c - 128)). lia. }
  destruct Hn as [n [-> Hn]].
  do 64 (destruct n as [|n];
         [destruct Hb as [-> | ->]; vm_compute; repeat split; discriminate|]).
  lia.
Qed.

Lemma utf8OfLatin1_cons (v : Z) (l : list Z) :
  utf8OfLatin1 (v :: l)
  = (if v <? 128 then [v]
     else [Z.lor 192 (Z.shiftr v 6); Z.lor 128 (Z.land v 63)])
    ++ utf8OfLatin1 l.
Proof. reflexivity. Qed.

Lemma latin1_back (n : nat) :
  forall bs lat : list Z,
    (length bs <= n)%nat -> latin1 bs = Some lat ->
    utf8OfLatin1 lat = bs /\ Forall (fun b => b <> 0) lat.
Proof.
  induction n as [|n IH]; intros bs lat Hlen.
  - destruct bs; [|cbn in Hlen; lia]. intros [= <-]. split; constructor.
  - destruct bs as [|b rest]; [intros [= <-]; split; constructor|].
    cbn [latin1]. cbn [length] in Hlen.
    destruct (Z.ltb_spec b 128) as [Hb|Hb].
    + destruct (Z.eqb_spec b 0) as [Hz|Hz]; [discriminate|].
      destruct (latin1 rest) as [lat'|] eqn:E; [|discriminate].
      cbn. intros [= <-].
      destruct (IH rest lat' ltac:(lia) E) as [Hu Hf]. split.
      * rewrite utf8OfLatin1_cons, Hu.
        destruct (Z.ltb_spec b 128); [reflexivity | lia].
      * constructor; assumption.
    + destruct ((b =? 194) || (b =? 195)) eqn:Eb; [|discriminate].
      destruct rest as [|c rest']; [discriminate|].
      destruct ((128 <=? c) && (c <=? 191)) eqn:Ec; [|discriminate].
      destruct (latin1 rest') as [lat'|] eqn:E; [|discriminate].
      cbn. intros [= <-]. cbn [length] in Hlen.
      destruct (IH rest' lat' ltac:(lia) E) as [Hu Hf].
      assert (Hb' : b = 194 \/ b = 195) by lia.
      assert (Hc' : 128 <= c <= 191) by lia.
      destruct (latin1_pair b c Hb' Hc') as (H1 & H2 & H3 & H4).
      split.
      * rewrite utf8OfLatin1_cons, Hu. cbv zeta in H1. rewrite H1, H2, H3.
        reflexivity.
      * constructor; assumption.
Qed.

Lemma cstring_app (s rest : list Z) :
  Forall (fun b => b <> 0) s -> cstring (s ++ 0 :: rest) = Some (s, rest).
Proof.
  induction 1 as [|b s Hb Hs IH]; [reflexivity|].
  cbn. destruct (Z.eqb_spec b 0); [contradiction|]. now rewrite IH.
Qed.

Section writer.
Context `{Flate}.

(** The header a writer puts out reads back as its name and its
    MTIME field, whatever follows it. *)
Lemma readHeader_headerBytes (z : Writer) (hb rest : list Z) :
  headerBytes z = Some hb ->
  readHeader (hb ++ rest)
  = Some (mkHeader (Name z) (mtimeField (ModTime z))).
Proof.
  unfold headerBytes, header10.
  pose proof (getUint32_putUint32 _ (mtimeField_range (ModTime z))) as Hm.
  unfold putUint32 in *.
  destruct (String.eqb_spec (Name z) EmptyString) as [Hn|Hn].
  - intros [= <-]. cbn. rewrite Hm, Hn. reflexivity.
  - destruct (latin1 (bytesOfString (Name z))) as [lat|] eqn:El;
      [|discriminate].
    intros [= <-].
    destruct (latin1_back _ _ _ (Nat.le_refl _) El) as [Hu Hf].
    cbn. rewrite <- !app_assoc. cbn. rewrite (cstring_app lat rest Hf).
    rewrite Hu, stringOfBytes_bytesOfString, Hm. reflexivity.
Qed.

End writer.

End header_facts.

(** ** The copy loop *)

Module copy_facts.
Import os os_facts gzip gzip_facts io observe.

Lemma bufSize_pos : (0 < bufSize)%nat.
Proof. unfold bufSize. lia. Qed.

(** What a read takes off the rest of a file. *)
Lemma read_rest (rest : list Z) :
  let buf := take bufSize rest in
  drop (length buf) rest = drop bufSize rest
  /\ buf ++ drop bufSize rest = rest
  /\ (buf = [] -> rest = []).
Proof.
  cbv zeta. pose proof bufSize_pos as Hb.
  split; [|split; [apply take_drop|]].
  - rewrite length_take.
    destruct (Nat.le_gt_cases bufSize (length rest)) as [Hle|Hgt].
    + now rewrite Nat.min_l by exact Hle.
    + rewrite Nat.min_r by lia. rewrite !drop_ge by lia. reflexivity.
  - destruct rest as [|x rest]; [reflexivity|].
    destruct bufSize; [lia|]. discriminate.
Qed.

Lemma piecesFrom_enough (n : nat) :
  (0 < n)%nat ->
  forall (k k' : nat) (l : list Z),
    (length l <= k)%nat -> (length l <= k')%nat ->
    piecesFrom k n l = piecesFrom k' n l.
Proof.
  intros Hn. induction k as [|k IH]; intros k' l Hk Hk'.
  - destruct l; [|cbn in Hk; lia]. destruct k'; reflexivity.
  - destruct l as [|x l]; [destruct k'; reflexivity|].
    destruct k' as [|k']; [cbn in Hk'; lia|].
    cbn [piecesFrom]. f_equal. cbn [length] in Hk, Hk'.
    apply IH; rewrite length_drop; cbn [length]; lia.
Qed.

Lemma pieces_nil (n : nat) : pieces n [] = [].
Proof. reflexivity. Qed.

Lemma pieces_cons (n : nat) (l : list Z) :
  (0 < n)%nat -> l <> [] ->
  pieces n l = take n l :: pieces n (drop n l).
Proof.
  intros Hn Hl. unfold pieces. destruct l as [|x l]; [congruence|].
  cbn [length piecesFrom]. f_equal.
  apply piecesFrom_enough; [exact Hn | | lia].
  rewrite length_drop. cbn [length]. lia.
Qed.

Section copy.
Context `{Flate}.

Lemma copyLoop_fields (n : nat) :
  forall (z z' : Writer) (src : File) (off : nat) (wd wd' : world)
         (e : option error),
    copyLoop n z src off wd = Some (wd', z', e) ->
    w z' = w z /\ Name z' = Name z /\ ModTime z' = ModTime z
    /\ closed z' = closed z
    /\ (wroteHeader z = true -> wroteHeader z' = true).
Proof.
  induction n as [|n IH]; intros z z' src off wd wd' e; [discriminate|].
  cbn [copyLoop]. destruct (File_Read src bufSize off wd) as [buf|e1].
  - destruct buf as [|x buf]; [intros [= <- <- <-]; tauto|].
    destruct (Write z (x :: buf) wd) as [[wd1 z1] [e1|]] eqn:E;
      apply Write_fields in E.
    + intros [= <- <- <-]. exact E.
    + intros Hc. apply IH in Hc.
      destruct E as (E1 & E2 & E3 & E4 & E5).
      destruct Hc as (C1 & C2 & C3 & C4 & C5).
      repeat split; try congruence. intros Hh. apply C5, E5, Hh.
  - intros [= <- <- <-]. tauto.
Qed.

(** The loop only puts bytes at the end of the destination. *)
Lemma copyLoop_appended (n : nat) :
  forall (z z' : Writer) (src : File) (off : nat) (wd wd' : world)
         (e : option error),
    copyLoop n z src off wd = Some (wd', z', e) ->
    appended (fd_path (w z)) wd wd'.
Proof.
  induction n as [|n IH]; intros z z' src off wd wd' e; [discriminate|].
  cbn [copyLoop]. destruct (File_Read src bufSize off wd) as [buf|e1].
  - destruct buf as [|x buf]; [intros [= <- <- <-]; apply appended_refl|].
    pose proof (Write_appended z (x :: buf) wd) as Hs.
    destruct (Write z (x :: buf) wd) as [[wd1 z1] [e1|]] eqn:E.
    + intros [= <- <- <-]. exact Hs.
    + intros Hc. apply IH in Hc. apply Write_fields in E.
      destruct E as [Hw _]. rewrite Hw in Hc.
      eapply appended_trans; [exact Hs | exact Hc].
  - intros [= <- <- <-]. apply appended_refl.
Qed.


(** The loop ends: a round that does not end it has read at least one
    byte, so what is left to read and what the device can still take
    have together gone down. *)
Lemma copyLoop_total (n : nat) :
  forall (z : Writer) (src : File) (off : nat) (wd : world),
    (length (content wd (fd_path src)) - off + free wd < n)%nat ->
    copyLoop n z src off wd <> None.
Proof.
  induction n as [|n IH]; intros z src off wd Hn; [lia|].
  cbn [copyLoop]. unfold File_Read.
  destruct (files wd !! fd_path src) as [[fl|d]|] eqn:Es; try discriminate.
  destruct (take bufSize (drop off (f_data fl))) as [|x buf] eqn:Eb;
    [discriminate|].
  pose proof (Write_appended z (x :: buf) wd) as Ha.
  destruct (Write z (x :: buf) wd) as [[wd1 z1] [e1|]]; [discriminate|].
  cbn [fst] in Ha. apply IH.
  destruct (appended_length _ (fd_path src) _ _ Ha) as (F & L & B).
  assert (Hlen : (off + length (x :: buf)
                  <= length (content wd (fd_path src)))%nat).
  { unfold content. rewrite Es. rewrite <- Eb, length_take, length_drop.
    assert (Hpos : (0 < length (take bufSize (drop off (f_data fl))))%nat)
      by (rewrite Eb; cbn; lia).
    rewrite length_take, length_drop in Hpos. lia. }
  cbn [length] in *. lia.
Qed.

Lemma Copy_total (z : Writer) (src : File) (wd : world) :
  Copy z src wd <> None.
Proof. apply copyLoop_total. unfold rounds. lia. Qed.


(** A copy that reports no error leaves the writer with none. *)
Lemma copyLoop_err (n : nat) :
  forall (z z' : Writer) (src : File) (off : nat) (wd wd' : world),
    copyLoop n z src off wd = Some (wd', z', None) ->
    err z = None -> err z' = None.
Proof.
  induction n as [|n IH]; intros z z' src off wd wd'; [discriminate|].
  cbn [copyLoop]. destruct (File_Read src bufSize off wd) as [buf|e1];
    [|discriminate].
  destruct buf as [|x buf]; [now intros [= <- <-]|].
  destruct (Write z (x :: buf) wd) as [[wd1 z1] [e1|]] eqn:E;
    [discriminate|].
  intros Hc _. apply Write_ok in E. eapply IH; [exact Hc | tauto].
Qed.

(** A copy that reports no error read a file; if it has written at
    all, the first bytes it has put at the end of the destination are
    the header. *)
Lemma copyLoop_header (n : nat) (z z' : Writer) (src : File) (off : nat)
    (wd wd' : world) :
  copyLoop n z src off wd = Some (wd', z', None) ->
  err z = None -> wroteHeader z = false ->
  (exists fl : file, files wd !! fd_path src = Some (NFile fl))
  /\ ((wroteHeader z' = false
       /\ content wd' (fd_path (w z)) = content wd (fd_path (w z)))
      \/ (wroteHeader z' = true
          /\ exists hb rest : list Z,
              headerBytes z = Some hb
              /\ content wd' (fd_path (w z))
                 = content wd (fd_path (w z)) ++ hb ++ rest)).
Proof.
  destruct n as [|n]; [discriminate|]. cbn [copyLoop]. unfold File_Read.
  destruct (files wd !! fd_path src) as [[fl|d]|] eqn:Es; try discriminate.
  destruct (take bufSize (drop off (f_data fl))) as [|x buf].
  - intros [= <- <-] Ez Hw. split; [eauto|]. left. tauto.
  - destruct (Write z (x :: buf) wd) as [[wd1 z1] [e1|]] eqn:E;
      [discriminate|].
    intros Hc Ez Hw. split; [eauto|]. right.
    pose proof (Write_fields _ _ _ _ _ _ E) as (Hw1 & _).
    apply Write_ok in E. rewrite Hw in E.
    destruct E as (_ & _ & Hh1 & _ & _ & hb & Hhb & Hd).
    pose proof (copyLoop_fields _ _ _ _ _ _ _ _ Hc) as (_ & _ & _ & _ & Hh).
    split; [apply Hh, Hh1|].
    apply copyLoop_appended in Hc. rewrite Hw1 in Hc.
    destruct Hc as [_ (sfx & Hs & _)].
    exists hb, ((flate.Write (compressor z) (x :: buf)).2 ++ sfx).
    split; [exact Hhb|]. rewrite Hs, Hd. now rewrite <- !app_assoc.
Qed.

(** A copy that reports no error from a source that is another file
    than the destination: the payload is the rest of the source, the
    compressor has been handed it in the pieces the buffer takes, and
    what it has put out is at the end of the destination, after the
    header if this copy has put it out. *)
Lemma copyLoop_stream (n : nat) :
  forall (z z' : Writer) (src : File) (off : nat) (wd wd' : world)
         (fl : file),
    copyLoop n z src off wd = Some (wd', z', None) ->
    err z = None -> fd_path src <> fd_path (w z) ->
    files wd !! fd_path src = Some (NFile fl) ->
    let rest := drop off (f_data fl) in
    payload z' = payload z ++ rest
    /\ compressor z' = (feeds (compressor z) (pieces bufSize rest)).1
    /\ exists hb : list Z,
        content wd' (fd_path (w z))
        = content wd (fd_path (w z)) ++ hb
          ++ (feeds (compressor z) (pieces bufSize rest)).2
        /\ (if wroteHeader z then hb = []
            else if wroteHeader z' then headerBytes z = Some hb
                 else hb = [] /\ rest = []).
Proof.
  induction n as [|n IH]; intros z z' src off wd wd' fl; [discriminate|].
  cbn [copyLoop]. unfold File_Read. intros Hc Ez Hne Hfl. rewrite Hfl in Hc.
  cbv zeta. set (rest := drop off (f_data fl)) in *.
  destruct (read_rest rest) as (Hdrop & Htake & Hnil).
  destruct (take bufSize rest) as [|x buf] eqn:Eb.
  - injection Hc as <- <-. rewrite (Hnil eq_refl), pieces_nil. cbn.
    rewrite !app_nil_r. repeat split. exists []. rewrite app_nil_r.
    split; [reflexivity|]. destruct (wroteHeader z); [reflexivity|].
    split; reflexivity.
  - assert (Hrest : rest <> []) by (intros Hr; rewrite Hr in Eb;
                                    destruct bufSize; discriminate).
    rewrite (pieces_cons _ _ bufSize_pos Hrest), Eb. cbn [feeds].
    destruct (Write z (x :: buf) wd) as [[wd1 z1] [e1|]] eqn:E;
      [discriminate|].
    pose proof (Write_appended z (x :: buf) wd) as Ha. rewrite E in Ha.
    cbn [fst] in Ha. destruct Ha as [Hs _].
    pose proof (Write_fields _ _ _ _ _ _ E) as (Hw & _).
    apply Write_ok in E.
    destruct E as (_ & Ez1 & Hh1 & Hp & Hco & hb & Hhb & Hd).
    assert (Hfl1 : files wd1 !! fd_path src = Some (NFile fl))
      by (rewrite (proj2 Hs _ Hne); exact Hfl).
    pose proof (copyLoop_fields _ _ _ _ _ _ _ _ Hc) as (_ & _ & _ & _ & Hh).
    specialize (IH _ _ _ _ _ _ fl Hc Ez1 ltac:(congruence) Hfl1).
    cbv zeta in IH. rewrite Hh1 in IH.
    assert (Hoff : drop (off + length (x :: buf)) (f_data fl)
                   = drop bufSize rest)
      by (rewrite <- Hdrop; unfold rest; now rewrite drop_drop).
    rewrite Hoff in IH.
    destruct IH as (Hp' & Hco' & hb' & Hd' & ->).
    rewrite Hw, Hco in *. rewrite app_nil_l in Hd'.
    destruct (flate.Write (compressor z) (x :: buf)) as [c1 out].
    cbn [fst snd] in *.
    destruct (feeds c1 (pieces bufSize (drop bufSize rest))) as [c2 outs].
    cbn [fst snd] in *. split; [|split; [exact Hco'|]].
    + rewrite Hp', Hp, <- app_assoc. f_equal. exact Htake.
    + exists hb. split.
      * rewrite Hd', Hd. now rewrite <- !app_assoc.
      * destruct (wroteHeader z); [exact Hhb|].
        rewrite (Hh Hh1). exact Hhb.
Qed.

End copy.

End copy_facts.

(** ** Compression *)

Module compress_facts.
Import time os os_facts gzip gzip_facts header_facts io copy_facts rotatefile
  observe.

Section compress.
Context `{Flate}.

(** [compressFile] returns, and all it does to the world is to make
    the file [dstPath] names, if there is none, and to put bytes at its
    end. *)
Lemma compressFile_sameBut (srcPath dstPath : string) (wd : world) :
  exists (wd' : world) (e : option error),
    compressFile srcPath dstPath wd = Some (wd', e)
    /\ sameBut (resolve wd dstPath) wd wd'.
Proof.
  unfold compressFile.
  destruct (OpenRead srcPath wd) as [srcFile|e0];
    [|do 2 eexists; split; [reflexivity | apply sameBut_refl]].
  unfold fsutil.QuickOpenFile.
  pose proof (OpenAppend_sameBut dstPath wd) as H1.
  destruct (OpenAppend dstPath wd) as [wd1 [gzFile|e1]] eqn:Eo;
    [|do 2 eexists; split; [reflexivity | exact H1]].
  apply OpenAppend_Ok in Eo. subst gzFile. cbn [fst] in H1.
  destruct (File_Stat srcFile wd1) as [fileSt|e2];
    [|do 2 eexists; split; [reflexivity | exact H1]].
  set (zw := setModTime
               (setName (NewWriter (mkHandle dstPath (resolve wd dstPath)))
                        (os.Name fileSt))
               (os.ModTime fileSt)).
  pose proof (Copy_total zw srcFile wd1) as Ht.
  destruct (Copy zw srcFile wd1) as [[[wd2 z2] e3]|] eqn:Ec; [|congruence].
  pose proof (copyLoop_appended _ _ _ _ _ _ _ _ Ec) as [H2 _]. cbn in H2.
  pose proof (copyLoop_fields _ _ _ _ _ _ _ _ Ec) as (Hw2 & _). cbn in Hw2.
  assert (H12 : sameBut (resolve wd dstPath) wd wd2)
    by (eapply sameBut_trans; eassumption).
  destruct e3 as [e3|]; [do 2 eexists; split; [reflexivity | exact H12]|].
  pose proof (Close_appended z2 wd2) as [H3 _]. rewrite Hw2 in H3.
  destruct (Close z2 wd2) as [[wd3 z3] e4]. cbn in H3.
  do 2 eexists. split; [reflexivity|].
  eapply sameBut_trans; eassumption.
Qed.


(** C6, amended.  After a successful [compressFile] the destination
    holds what it held before followed by a gzip member whose header
    name is the base name of [srcPath] and whose MTIME field is the
    modification time of the source in whole seconds of Unix time:
    reduced modulo 2^32, and 0 for a time not after the epoch. *)
Theorem compressFile_header (srcPath dstPath : string) (wd wd' : world) :
  compressFile srcPath dstPath wd = Some (wd', None) ->
  exists (fl : file) (member : list Z) (hdr : Header),
    nodeAt wd srcPath = Some (NFile fl)
    /\ dataAt wd' dstPath = dataAt wd dstPath ++ member
    /\ readHeader member = Some hdr
    /\ h_name hdr = basename srcPath
    /\ h_mtime hdr
       = (if Time_After (f_modTime fl) (time.Unix 0 0)
          then Time_Unix (f_modTime fl) mod 2 ^ 32 else 0)
    /\ (0 < Time_Unix (f_modTime fl) < 2 ^ 32 ->
        h_mtime hdr = Time_Unix (f_modTime fl)).
Proof.
  intros Hrun.
  destruct (compressFile_sameBut srcPath dstPath wd)
    as (wd'' & e'' & Hc & Hsame).
  rewrite Hrun in Hc. injection Hc as <- <-.
  unfold dataAt. rewrite (sameBut_resolve _ _ _ dstPath Hsame).
  revert Hrun. unfold compressFile.
  destruct (OpenRead srcPath wd) as [srcFile|e0] eqn:Er; [|discriminate].
  apply OpenRead_Ok in Er. destruct Er as [-> Hsrc].
  unfold fsutil.QuickOpenFile.
  pose proof (OpenAppend_existing dstPath _ wd Hsrc) as Hkeep.
  pose proof (OpenAppend_content dstPath (resolve wd dstPath) wd) as Hdata.
  destruct (OpenAppend dstPath wd) as [wd1 [gzFile|e1]] eqn:Eo;
    [|discriminate].
  apply OpenAppend_Ok in Eo. subst gzFile. cbn [fst] in Hkeep, Hdata.
  unfold File_Stat. cbn [fd_path fd_name].
  destruct (files wd1 !! resolve wd srcPath) as [n|] eqn:En; [|discriminate].
  set (dst := mkHandle dstPath (resolve wd dstPath)).
  set (zw := setModTime (setName (NewWriter dst)
                                 (os.Name (infoOf srcPath n)))
                        (os.ModTime (infoOf srcPath n))).
  destruct (Copy zw (mkHandle srcPath (resolve wd srcPath)) wd1)
    as [[[wd2 z2] [e3|]]|] eqn:Ec; try discriminate.
  pose proof (copyLoop_fields _ _ _ _ _ _ _ _ Ec) as (Hw2 & Hn2 & Hm2 & Hc2 & _).
  pose proof (copyLoop_err _ _ _ _ _ _ _ Ec eq_refl) as Ez2.
  apply copyLoop_header in Ec; [|reflexivity..].
  destruct Ec as ([fl Hfl] & Hcase). cbn [fd_path] in Hfl.
  rewrite En in Hfl. injection Hfl as ->.
  destruct (Close z2 wd2) as [[wd3 z3] e4] eqn:Ecl.
  intros [= -> ->].
  apply Close_ok in Ecl; [|rewrite Hc2; reflexivity].
  destruct Ecl as (hb2 & Hhb2 & Hd3).
  rewrite Hw2 in Hd3. cbn [w zw setModTime setName NewWriter dst fd_path]
    in Hcase, Hd3.
  assert (Hsame2 : headerBytes z2 = headerBytes zw).
  { unfold headerBytes, header10. now rewrite Hn2, Hm2. }
  assert (Hm : exists hb rest : list Z,
             headerBytes zw = Some hb
             /\ content wd' (resolve wd dstPath)
                = content wd (resolve wd dstPath) ++ hb ++ rest).
  { destruct Hcase as [[Hh Hd2]|(Hh & hb & rest & Hhb & Hd2)].
    - rewrite Hh, Hsame2 in Hhb2. exists hb2. eexists.
      split; [exact Hhb2|]. rewrite Hd3, Hd2, Hdata. reflexivity.
    - rewrite Hh in Hhb2. subst hb2. exists hb. eexists.
      split; [exact Hhb|]. rewrite Hd3, Hd2, Hdata.
      rewrite <- !app_assoc. reflexivity. }
  destruct Hm as (hb & rest & Hhb & Hd).
  exists fl, (hb ++ rest), (mkHeader (Name zw) (mtimeField (ModTime zw))).
  split; [unfold nodeAt; congruence|]. split; [exact Hd|].
  split; [now apply readHeader_headerBytes|].
  split; [reflexivity|]. cbn. unfold mtimeField, uint32.
  split; [reflexivity|]. intros Hr.
  assert (Ha : Time_After (f_modTime fl) (time.Unix 0 0) = true).
  { unfold Time_After, time.Unix, Time_Unix in *. cbn [unixNano] in *.
    apply Z.ltb_lt. change time.Second with 1000000000 in *.
    Z.div_mod_to_equations. lia. }
  rewrite Ha. apply Z.mod_small. lia.
Qed.

End compress.

(** C6, as stated, fails: the header holds whole seconds, the
    modification time of the file has half a second more. *)
Lemma header_modtime_loses_half_second :
  ~ (forall (F : Flate) (srcPath dstPath : string) (wd wd' : world)
            (fl : file) (hdr : Header),
        @compressFile F srcPath dstPath wd = Some (wd', None) ->
        nodeAt wd srcPath = Some (NFile fl) ->
        readHeader (dataAt wd' dstPath) = Some hdr ->
        h_name hdr = basename srcPath
        /\ unixNano (Header_ModTime hdr) = unixNano (f_modTime fl)).
Proof.
  intros Hall.
  destruct (@compressFile examples.plainFlate "/var/log/app.log.1" "/var/log/app.log.1.gz"
              examples.backupWorld) as [[wd' [e|]]|] eqn:Ec;
    [vm_compute in Ec; discriminate | | vm_compute in Ec; discriminate].
  destruct (readHeader (dataAt wd' "/var/log/app.log.1.gz")) as [hdr|] eqn:Eh.
  - destruct (Hall examples.plainFlate _ _ _ _ _ hdr Ec eq_refl Eh) as [_ Hm].
    vm_compute in Ec. injection Ec as <-. vm_compute in Eh.
    injection Eh as <-. vm_compute in Hm. discriminate.
  - vm_compute in Ec. injection Ec as <-. vm_compute in Eh. discriminate.
Qed.

Lemma compressFile_header_witness :
  exists wd' : world,
    @compressFile examples.plainFlate "/var/log/app.log.1"
      "/var/log/app.log.1.gz" examples.backupWorld = Some (wd', None)
    /\ exists (fl : file) (member : list Z) (hdr : Header),
        nodeAt examples.backupWorld "/var/log/app.log.1"
        = Some (NFile fl)
        /\ dataAt wd' "/var/log/app.log.1.gz"
           = dataAt examples.backupWorld "/var/log/app.log.1.gz" ++ member
        /\ readHeader member = Some hdr
        /\ h_name hdr = basename "/var/log/app.log.1"
        /\ h_mtime hdr
           = (if Time_After (f_modTime fl) (time.Unix 0 0)
              then Time_Unix (f_modTime fl) mod 2 ^ 32 else 0)
        /\ (0 < Time_Unix (f_modTime fl) < 2 ^ 32 ->
            h_mtime hdr = Time_Unix (f_modTime fl)).
Proof.
  destruct (@compressFile examples.plainFlate "/var/log/app.log.1"
              "/var/log/app.log.1.gz" examples.backupWorld)
    as [[wd' [e|]]|] eqn:Ec;
    [exfalso; vm_compute in Ec; discriminate | |
     exfalso; vm_compute in Ec; discriminate].
  exists wd'. split; [reflexivity|].
  exact (@compressFile_header examples.plainFlate _ _ _ _ Ec).
Defined.


(** Another path is not enough: a destination that is another
    spelling of the path of the source, or a link to it, names the
    source file, and the source changes as with the same path. *)
Lemma compressFile_link_changes_source :
  "/var/log/app.log.1"%string <> "/var/log/./app.log.1"%string
  /\ exists (wd' : world) (e : option error),
      @compressFile examples.plainFlate "/var/log/app.log.1"
        "/var/log/./app.log.1" examples.linkedWorld = Some (wd', e)
      /\ dataAt examples.linkedWorld "/var/log/app.log.1" = [120; 121]
      /\ take 12 (dataAt wd' "/var/log/app.log.1")
         = [120; 121; 31; 139; 8; 8; 254; 92; 96; 98; 0; 255].
Proof.
  split; [discriminate|].
  destruct (@compressFile examples.plainFlate "/var/log/app.log.1"
              "/var/log/./app.log.1" examples.linkedWorld)
    as [[wd' e]|] eqn:Ec; [|vm_compute in Ec; discriminate].
  exists wd', e. split; [reflexivity|]. split; [reflexivity|].
  vm_compute in Ec. injection Ec as <- <-. vm_compute. reflexivity.
Qed.


End compress_facts.

(** ** Rotation policy: bounds, alignment and order *)

Module deadline_facts.
Import time timex rotatefile time_facts timex_facts rotation_facts.

Lemma minute_second_mod (t : Time) :
  Time_Minute t * 60 + Time_Second t = localSec t mod 3600.
Proof.
  unfold Time_Minute, Time_Second. generalize (localSec t). intros l.
  Z.div_mod_to_equations. lia.
Qed.

(** The whole seconds of the start of the hour, by the wall clock. *)
Lemma Unix_HourStart_div (t : Time) :
  Time_Unix (HourStart t) = 3600 * (localSec t / 3600) - zoneOffset t.
Proof.
  rewrite Unix_HourStart, minute_second_mod. unfold localSec.
  generalize (Time_Unix t) (zoneOffset t). intros u o.
  Z.div_mod_to_equations. lia.
Qed.

Lemma Unix_DayStart_div (t : Time) :
  Time_Unix (DayStart t) = 86400 * (localSec t / 86400) - zoneOffset t.
Proof. rewrite Unix_DayStart. unfold Time_Date. lia. Qed.

(** X1.  An hour-level deadline, and a minute-level one that would cross
    the hour, is after [now], at most an hour after it, and on a whole
    hour of the wall clock of [now]'s location. *)
Theorem FirstCheckTime_hour_bounds (rt : Z) (now : Time) :
  3600 <= rt < 86400
  \/ (60 <= rt < 3600 /\ 60 <= Time_Minute now + Z.quot rt 60) ->
  Time_Unix now < FirstCheckTime rt now <= Time_Unix now + 3600
  /\ (FirstCheckTime rt now + zoneOffset now) mod 3600 = 0.
Proof.
  intros H.
  assert (Hd : FirstCheckTime rt now = Time_Unix (HourStart now) + 3600).
  { destruct H as [H|[H Hn]];
      [now apply FirstCheckTime_hour | now apply FirstCheckTime_min_next_hour]. }
  rewrite Hd, Unix_HourStart_div. unfold localSec.
  generalize (Time_Unix now) (zoneOffset now). intros u o.
  Z.div_mod_to_equations. lia.
Qed.

Lemma FirstCheckTime_hour_bounds_witness :
  3600 <= EveryHour < 86400
  /\ Time_Unix (time.Unix 1650482430 0)
     < FirstCheckTime EveryHour (time.Unix 1650482430 0)
     <= Time_Unix (time.Unix 1650482430 0) + 3600.
Proof.
  assert (H : 3600 <= EveryHour < 86400) by (vm_compute; split; congruence).
  split; [exact H|].
  exact (proj1 (FirstCheckTime_hour_bounds EveryHour
                  (time.Unix 1650482430 0) (or_introl H))).
Defined.

(** X2.  In a location with one fixed offset from UTC (no change to or
    from daylight-saving time), a day-level deadline is not before
    [now], less than a day after it, and the last second of a day of
    the wall clock of that location. *)
Theorem FirstCheckTime_day_bounds (rt : Z) (now : Time) :
  86400 <= rt ->
  Time_Unix now <= FirstCheckTime rt now < Time_Unix now + 86400
  /\ (FirstCheckTime rt now + zoneOffset now) mod 86400 = 86399.
Proof.
  intros H. rewrite FirstCheckTime_day by assumption.
  rewrite Unix_DayStart_div. unfold localSec.
  generalize (Time_Unix now) (zoneOffset now). intros u o.
  Z.div_mod_to_equations. lia.
Qed.

Lemma FirstCheckTime_day_bounds_witness :
  86400 <= EveryDay
  /\ Time_Unix (time.Unix 1650482430 0)
     <= FirstCheckTime EveryDay (time.Unix 1650482430 0)
     < Time_Unix (time.Unix 1650482430 0) + 86400.
Proof.
  assert (H : 86400 <= EveryDay) by (vm_compute; congruence).
  split; [exact H|].
  exact (proj1 (FirstCheckTime_day_bounds EveryDay
                  (time.Unix 1650482430 0) H)).
Defined.

(** What a minute-level interval gives, in one formula. *)
Lemma FirstCheckTime_min (rt : Z) (now : Time) :
  60 <= rt < 3600 ->
  FirstCheckTime rt now
  = Time_Unix (HourStart now)
    + (if 60 <=? Time_Minute now + Z.quot rt 60 then 3600 else 0).
Proof.
  intros H. destruct (Z.leb_spec 60 (Time_Minute now + Z.quot rt 60)).
  - now apply FirstCheckTime_min_next_hour.
  - rewrite FirstCheckTime_min_hour_start by assumption. lia.
Qed.

(** X3.  As the clock goes on, the deadline does not go back: for an
    interval of a minute or more and two times in one location with
    one fixed offset from UTC, the same at both times. *)
Theorem FirstCheckTime_monotone (rt : Z) (now1 now2 : Time) :
  60 <= rt ->
  zoneOffset now1 = zoneOffset now2 ->
  Time_Unix now1 <= Time_Unix now2 ->
  FirstCheckTime rt now1 <= FirstCheckTime rt now2.
Proof.
  intros Hrt Hz Hle.
  destruct (Z.le_gt_cases 86400 rt) as [Hd|Hd].
  - rewrite !FirstCheckTime_day, !Unix_DayStart_div by assumption.
    unfold localSec. rewrite Hz.
    pose proof (Z.div_le_mono (Time_Unix now1 + zoneOffset now2)
                  (Time_Unix now2 + zoneOffset now2) 86400
                  ltac:(lia) ltac:(lia)).
    lia.
  - assert (Hh : localSec now1 / 3600 <= localSec now2 / 3600).
    { unfold localSec. rewrite Hz. apply Z.div_le_mono; lia. }
    destruct (Z.le_gt_cases 3600 rt) as [Hr|Hr].
    + rewrite !FirstCheckTime_hour, !Unix_HourStart_div by lia. lia.
    + rewrite !FirstCheckTime_min, !Unix_HourStart_div by lia. rewrite Hz.
      destruct (Z.eq_dec (localSec now1 / 3600) (localSec now2 / 3600))
        as [He|Hne].
      * rewrite He.
        assert (Hm : Time_Minute now1 <= Time_Minute now2).
        { unfold Time_Minute. revert He Hh. unfold localSec. rewrite Hz.
          generalize (Time_Unix now1) (Time_Unix now2) (zoneOffset now2) Hle.
          intros u1 u2 o Hu He _. Z.div_mod_to_equations. lia. }
        destruct (Z.leb_spec 60 (Time_Minute now1 + Z.quot rt 60)),
                 (Z.leb_spec 60 (Time_Minute now2 + Z.quot rt 60)); lia.
      * destruct (Z.leb_spec 60 (Time_Minute now1 + Z.quot rt 60)),
                 (Z.leb_spec 60 (Time_Minute now2 + Z.quot rt 60)); lia.
Qed.

Lemma FirstCheckTime_monotone_witness :
  FirstCheckTime Every15Min (time.Unix 1650482430 0)
  <= FirstCheckTime Every15Min (time.Unix 1650484000 0).
Proof.
  apply FirstCheckTime_monotone; vm_compute; congruence.
Defined.

(** X4.  A coarser interval never adds a field to the suffix layout: the
    fields of its layout are the first fields of a finer one's. *)
Theorem TimeFormat_fields_prefix (rt1 rt2 : Z) :
  rt1 <= rt2 ->
  fields (TimeFormat rt2) `prefix_of` fields (TimeFormat rt1).
Proof.
  intros Hle. unfold TimeFormat, level, OneDaySec, OneHourSec, EveryMinute,
    OneMinSec.
  destruct (Z.leb_spec 86400 rt1), (Z.leb_spec 86400 rt2),
    (Z.leb_spec 3600 rt1), (Z.leb_spec 3600 rt2),
    (Z.leb_spec 60 rt1), (Z.leb_spec 60 rt2); try lia;
    vm_compute fields; try reflexivity;
    (eexists; reflexivity).
Qed.

Lemma TimeFormat_fields_prefix_witness :
  fields (TimeFormat EveryDay) `prefix_of` fields (TimeFormat EveryMinute).
Proof.
  apply TimeFormat_fields_prefix. vm_compute. congruence.
Defined.

End deadline_facts.

(** ** The configuration: sizes and durations *)

Module config_facts.
Import time config.

(** X5.  For a limit below 2^44 megabytes the size limit in bytes is
    exact, and zero only for a limit of zero; from 2^44 on the product
    no longer fits in 64 bits, and the limit in bytes is zero again at
    every multiple of 2^44. *)
Theorem maxSizeByte_exact (c : Config) :
  0 <= MaxSize c < 2 ^ 64 ->
  (MaxSize c < 2 ^ 44 -> maxSizeByte c = MaxSize c * 1048576)
  /\ (maxSizeByte c = 0 <-> MaxSize c mod 2 ^ 44 = 0).
Proof.
  intros Hr. unfold maxSizeByte, wrapU64, oneMByte.
  change (2 ^ 64) with 18446744073709551616 in *.
  change (2 ^ 44) with 17592186044416 in *.
  change (1024 * 1024) with 1048576.
  destruct (Z.ltb_spec (MaxSize c) 1) as [H0|H1].
  - assert (MaxSize c = 0) by lia. split; [lia|].
    split; intros _; [|reflexivity]. replace (MaxSize c) with 0 by lia.
    reflexivity.
  - rewrite Z.mod_mod by lia. split.
    + intros Hs. apply Z.mod_small. lia.
    + generalize (MaxSize c) Hr H1. intros m Hm H1'.
      Z.div_mod_to_equations. lia.
Qed.

Lemma maxSizeByte_exact_witness :
  maxSizeByte (mkConfig "/var/log/app.log" 20 3600 false 20 0) = 20971520.
Proof.
  apply (proj1 (maxSizeByte_exact
                  (mkConfig "/var/log/app.log" 20 3600 false 20 0)
                  ltac:(vm_compute; split; congruence))).
  vm_compute. reflexivity.
Defined.

(** X6.  Up to 2562047 hours (some 292 years) the retention time is exact,
    positive, and zero only when [BackupTime] is zero. *)
Theorem backupDuration_exact (c : Config) :
  0 <= BackupTime c <= 2562047 ->
  backupDuration c = BackupTime c * time.Hour
  /\ (backupDuration c = 0 <-> BackupTime c = 0)
  /\ 0 <= backupDuration c.
Proof.
  intros Hr. unfold backupDuration, wrap64.
  change time.Hour with 3600000000000.
  change (2 ^ 63) with 9223372036854775808.
  change (2 ^ 64) with 18446744073709551616.
  destruct (Z.ltb_spec (BackupTime c) 1) as [H0|H1]; [lia|].
  rewrite (Z.mod_small (BackupTime c + _)) by lia.
  rewrite Z.mod_small by lia. lia.
Qed.

Lemma backupDuration_exact_witness :
  backupDuration (mkConfig "/var/log/app.log" 20 3600 false 20 24)
  = 24 * time.Hour.
Proof.
  apply (proj1 (backupDuration_exact
                  (mkConfig "/var/log/app.log" 20 3600 false 20 24)
                  ltac:(vm_compute; split; congruence))).
Defined.

(** One hour more and the product leaves [int64]: the retention time
    comes out negative. *)
Lemma backupDuration_overflow :
  backupDuration (mkConfig "/var/log/app.log" 20 3600 false 20 2562048) < 0.
Proof. vm_compute. reflexivity. Qed.

End config_facts.

(** ** Compression: the end of the loop, failures and the payload *)

Module archive_facts.
Import time os os_facts gzip gzip_facts header_facts io copy_facts rotatefile
  observe.

Section archive.
Context `{Flate}.


(** X8.  A source or a destination that cannot be opened is reported, and
    nothing is changed: no byte is written and no destination is made. *)
Theorem compressFile_open_failure (srcPath dstPath : string) (wd : world) :
  (nodeAt wd srcPath = None ->
   compressFile srcPath dstPath wd = Some (wd, Some ENOENT))
  /\ (forall fl : file,
        nodeAt wd srcPath = Some (NFile fl) -> f_readable fl = false ->
        compressFile srcPath dstPath wd = Some (wd, Some EACCES))
  /\ (forall (fl : file) (d : dir),
        nodeAt wd srcPath = Some (NFile fl) -> f_readable fl = true ->
        nodeAt wd dstPath = Some (NDir d) ->
        compressFile srcPath dstPath wd = Some (wd, Some EISDIR))
  /\ (forall fl gz : file,
        nodeAt wd srcPath = Some (NFile fl) -> f_readable fl = true ->
        nodeAt wd dstPath = Some (NFile gz) -> f_writable gz = false ->
        compressFile srcPath dstPath wd = Some (wd, Some EACCES)).
Proof.
  unfold compressFile, fsutil.QuickOpenFile, OpenRead, OpenAppend.
  repeat split.
  - intros ->. reflexivity.
  - intros fl -> ->. reflexivity.
  - intros fl d -> -> ->. reflexivity.
  - intros fl gz -> -> -> ->. reflexivity.
Qed.

(** X9.  After a successful [compressFile] to a destination that is
    another file than the source, the member added to the destination
    is the header for the base name and the modification time of the
    source, the stream the compressor puts out for the content of the
    source, handed to it once and in order in the pieces the buffer of
    [io.Copy] takes, and the trailer with the checksum and the length
    of the source. *)
Theorem compressFile_payload (srcPath dstPath : string) (wd wd' : world) :
  ~ sameFile wd srcPath dstPath ->
  compressFile srcPath dstPath wd = Some (wd', None) ->
  exists (fl : file) (hb : list Z),
    nodeAt wd srcPath = Some (NFile fl)
    /\ headerBytes
         (setModTime
            (setName (NewWriter (mkHandle dstPath (resolve wd dstPath)))
                     (basename srcPath))
            (f_modTime fl)) = Some hb
    /\ dataAt wd' dstPath
       = dataAt wd dstPath ++ hb ++ stream (pieces bufSize (f_data fl))
         ++ putUint32 (crc32 (f_data fl) mod 2 ^ 32)
         ++ putUint32 (Z.of_nat (length (f_data fl)) mod 2 ^ 32).
Proof.
  intros Hne Hrun.
  assert (Hres : resolve wd' dstPath = resolve wd dstPath).
  { revert Hrun. unfold compressFile.
    destruct (OpenRead srcPath wd) as [srcFile|e0]; [|discriminate].
    unfold fsutil.QuickOpenFile.
    pose proof (OpenAppend_sameBut dstPath wd) as H1.
    destruct (OpenAppend dstPath wd) as [wd1 [gzFile|e1]] eqn:Eo;
      [|discriminate].
    apply OpenAppend_Ok in Eo. subst gzFile. cbn [fst] in H1.
    destruct (File_Stat srcFile wd1) as [fileSt|e2]; [|discriminate].
    match goal with |- context [Copy ?zw srcFile wd1] =>
      destruct (Copy zw srcFile wd1) as [[[wd2 z2] [e3|]]|] eqn:Ec;
        try discriminate end.
    pose proof (copyLoop_appended _ _ _ _ _ _ _ _ Ec) as [H2 _].
    pose proof (copyLoop_fields _ _ _ _ _ _ _ _ Ec) as (Hw2 & _).
    pose proof (Close_appended z2 wd2) as [H3 _].
    destruct (Close z2 wd2) as [[wd3 z3] e4]. intros [= -> ->].
    cbn [fst] in H3. unfold resolve.
    rewrite (proj1 H3), (proj1 H2), (proj1 H1). reflexivity. }
  unfold dataAt. rewrite Hres. clear Hres.
  revert Hrun. unfold compressFile.
  destruct (OpenRead srcPath wd) as [srcFile|e0] eqn:Er; [|discriminate].
  apply OpenRead_Ok in Er. destruct Er as [-> Hsrc].
  unfold fsutil.QuickOpenFile.
  pose proof (OpenAppend_existing dstPath _ wd Hsrc) as Hkeep.
  pose proof (OpenAppend_content dstPath (resolve wd dstPath) wd) as Hdata.
  destruct (OpenAppend dstPath wd) as [wd1 [gzFile|e1]] eqn:Eo;
    [|discriminate].
  apply OpenAppend_Ok in Eo. subst gzFile. cbn [fst] in Hkeep, Hdata.
  unfold File_Stat. cbn [fd_path fd_name].
  destruct (files wd1 !! resolve wd srcPath) as [n|] eqn:En; [|discriminate].
  set (dst := mkHandle dstPath (resolve wd dstPath)).
  set (zw := setModTime (setName (NewWriter dst)
                                 (os.Name (infoOf srcPath n)))
                        (os.ModTime (infoOf srcPath n))).
  destruct (Copy zw (mkHandle srcPath (resolve wd srcPath)) wd1)
    as [[[wd2 z2] [e3|]]|] eqn:Ec; try discriminate.
  pose proof (copyLoop_fields _ _ _ _ _ _ _ _ Ec)
    as (Hw2 & Hn2 & Hm2 & Hc2 & _).
  destruct n as [fl|d].
  2:{ exfalso. apply copyLoop_header in Ec; [|reflexivity..].
      destruct Ec as ([fl Hfl] & _). cbn [fd_path] in Hfl. congruence. }
  apply (copyLoop_stream _ _ _ _ _ _ _ fl) in Ec;
    [|reflexivity | exact Hne | exact En].
  cbv zeta in Ec. rewrite drop_0 in Ec.
  cbn [payload compressor w wroteHeader zw setModTime setName NewWriter dst
       fd_path] in Ec.
  destruct Ec as (Hp & Hco & hb1 & Hd2 & Hcase).
  destruct (Close z2 wd2) as [[wd3 z3] e4] eqn:Ecl.
  intros [= -> ->].
  apply Close_ok in Ecl; [|rewrite Hc2; reflexivity].
  destruct Ecl as (hb2 & Hhb2 & Hd3).
  rewrite Hw2, Hp, Hco in Hd3. cbn [w zw setModTime setName NewWriter dst
                                    fd_path] in Hd3.
  assert (Hsame2 : headerBytes z2 = headerBytes zw).
  { unfold headerBytes, header10. now rewrite Hn2, Hm2. }
  exists fl. unfold stream.
  destruct (feeds newCoder (pieces bufSize (f_data fl))) as [c outs] eqn:Ef.
  cbn [fst snd] in *.
  destruct (wroteHeader z2) eqn:Hh2.
  - subst hb2. exists hb1. split; [unfold nodeAt; congruence|].
    split; [exact Hcase|]. rewrite Hd3, Hd2, Hdata. unfold trailer, uint32.
    cbn [app]. now rewrite <- !app_assoc.
  - destruct Hcase as [-> Hnil]. exists hb2.
    split; [unfold nodeAt; congruence|].
    rewrite Hsame2 in Hhb2. split; [exact Hhb2|].
    rewrite Hnil, pieces_nil in Ef. injection Ef as <- <-.
    rewrite Hd3, Hd2, Hdata, Hnil. unfold trailer, uint32. cbn [app].
    rewrite app_nil_r. reflexivity.
Qed.



End archive.

(** With the source as its own destination and a coder that puts out
    as much as it takes in, the loop goes on reading what it has
    written until the device is full. *)
Lemma compressFile_onto_itself_fills_device :
  exists wd' : world,
    @compressFile examples.eagerFlate "/var/log/app.log.1"
      "/var/log/app.log.1" examples.backupWorld = Some (wd', Some ENOSPC)
    /\ free wd' = O
    /\ length (dataAt wd' "/var/log/app.log.1")
       = (2 + free examples.backupWorld)%nat.
Proof.
  destruct (@compressFile examples.eagerFlate "/var/log/app.log.1"
              "/var/log/app.log.1" examples.backupWorld)
    as [[wd' e]|] eqn:Ec; [|vm_compute in Ec; discriminate].
  vm_compute in Ec. injection Ec as <- <-. eexists.
  split; [reflexivity|]. vm_compute. split; reflexivity.
Qed.


Lemma compressFile_open_failure_witness :
  @compressFile examples.plainFlate "/var/log/none" "/var/log/none.gz"
    examples.backupWorld
  = Some (examples.backupWorld, Some ENOENT).
Proof.
  apply (proj1 (@compressFile_open_failure examples.plainFlate
                  "/var/log/none" "/var/log/none.gz" examples.backupWorld)).
  vm_compute. reflexivity.
Defined.

Lemma compressFile_payload_witness :
  exists wd' : world,
    @compressFile examples.plainFlate "/var/log/app.log.1"
      "/var/log/app.log.1.gz" examples.backupWorld = Some (wd', None)
    /\ exists (fl : file) (hb : list Z),
        nodeAt examples.backupWorld "/var/log/app.log.1" = Some (NFile fl)
        /\ @headerBytes examples.plainFlate
             (setModTime
                (setName
                   (NewWriter
                      (mkHandle "/var/log/app.log.1.gz"
                         (resolve examples.backupWorld
                            "/var/log/app.log.1.gz")))
                   (basename "/var/log/app.log.1"))
                (f_modTime fl)) = Some hb
        /\ dataAt wd' "/var/log/app.log.1.gz"
           = dataAt examples.backupWorld "/var/log/app.log.1.gz" ++ hb
             ++ @stream examples.plainFlate (pieces bufSize (f_data fl))
             ++ putUint32 (@crc32 examples.plainFlate (f_data fl) mod 2 ^ 32)
             ++ putUint32 (Z.of_nat (length (f_data fl)) mod 2 ^ 32).
Proof.
  destruct (@compressFile examples.plainFlate "/var/log/app.log.1"
              "/var/log/app.log.1.gz" examples.backupWorld)
    as [[wd' [e|]]|] eqn:Ec;
    [exfalso; vm_compute in Ec; discriminate | |
     exfalso; vm_compute in Ec; discriminate].
  exists wd'. split; [reflexivity|].
  assert (Hne : ~ sameFile examples.backupWorld "/var/log/app.log.1"
                           "/var/log/app.log.1.gz")
    by (vm_compute; discriminate).
  exact (@compressFile_payload examples.plainFlate _ _ _ _ Hne Ec).
Defined.


End archive_facts.

(** ** Enumeration: which entries reach the handler *)

Module walk_facts.
Import time os rotatefile observe.

Lemma filtered_passes (dir : string) (filters : list filterFunc)
    (fi : os.FileInfo) :
  (0 <? length filters)%nat
  && existsb (fun filter => negb (filter (dir ++ os.Name fi)%string fi))
             filters
  = negb (passes dir filters fi).
Proof.
  unfold passes. induction filters as [|f fs IH]; [reflexivity|].
  cbn [length existsb forallb]. cbn [Nat.ltb Nat.leb andb] in *.
  destruct (f (dir ++ os.Name fi)%string fi); cbn [negb orb andb].
  - destruct fs as [|g gs]; [reflexivity|]. exact IH.
  - reflexivity.
Qed.

(** X11.  The scan of a list of entries in two parts: the second part is
    scanned from the state the first one leaves, and not at all once
    the handler has returned an error. *)
Theorem handleStats_app {S : Type} (dir : string) (handleFn : handleFunc S)
    (filters : list filterFunc) (stats1 stats2 : list os.FileInfo) (s : S) :
  handleStats dir handleFn filters (stats1 ++ stats2) s
  = match handleStats dir handleFn filters stats1 s with
    | (s1, None) => handleStats dir handleFn filters stats2 s1
    | (s1, Some e) => (s1, Some e)
    end.
Proof.
  revert s. induction stats1 as [|fi stats1 IH]; intros s; [reflexivity|].
  cbn [app handleStats].
  destruct ((0 <? length filters)%nat && _); [apply IH|].
  destruct (handleFn (dir ++ os.Name fi)%string fi s) as [s1 [e|]];
    [reflexivity | apply IH].
Qed.

(** With a handler that returns no error, the entries handled are
    those that pass every filter, each once, in the order of the
    directory, under the path [dir] followed by the name. *)
Theorem handleStats_passing {S : Type} (dir : string)
    (handleFn : handleFunc S) (filters : list filterFunc)
    (stats : list os.FileInfo) (s : S) :
  (forall fPath fi s', (handleFn fPath fi s').2 = None) ->
  handleStats dir handleFn filters stats s
  = (foldl (fun acc fi => (handleFn (dir ++ os.Name fi)%string fi acc).1) s
           (List.filter (passes dir filters) stats),
     None).
Proof.
  intros Hok. revert s. induction stats as [|fi stats IH]; intros s;
    [reflexivity|].
  cbn [handleStats List.filter]. rewrite filtered_passes.
  destruct (passes dir filters fi); cbn [negb]; [|apply IH].
  pose proof (Hok (dir ++ os.Name fi)%string fi s) as He. cbn [foldl].
  destruct (handleFn (dir ++ os.Name fi)%string fi s) as [s1 e].
  cbn in He. subst e. cbn [fst]. apply IH.
Qed.

(** X12.  On a directory that can be read, with a handler that returns
    no error, [findFilesInDir] returns nil and has handled the entries
    that pass every filter, each once, in the order of the directory,
    under the path [dir] followed by the name. *)
Theorem findFilesInDir_readable {S : Type} (dir : string)
    (handleFn : handleFunc S) (filters : list filterFunc)
    (wd : world) (s : S) (d : os.dir) :
  nodeAt wd dir = Some (NDir d) -> d_readable d = true ->
  (forall fPath fi s', (handleFn fPath fi s').2 = None) ->
  findFilesInDir dir handleFn filters wd s
  = (foldl (fun acc fi => (handleFn (dir ++ os.Name fi)%string fi acc).1) s
           (List.filter (passes dir filters) (d_entries d)),
     None).
Proof.
  intros Hd Hr Hok. unfold findFilesInDir, Stat, Open, OpenRead, File_Readdir.
  rewrite Hd. cbn [infoOf IsDir negb]. rewrite Hr. cbn [fd_path].
  fold (nodeAt wd dir). rewrite Hd.
  now apply handleStats_passing.
Qed.

(** *** [Swap] *)

Lemma Swap_lookups (fis : list fileInfo) (i j : nat) (a b : fileInfo) :
  fis !! i = Some a -> fis !! j = Some b ->
  (<[j:=a]> (<[i:=b]> fis)) !! i = Some b
  /\ (<[j:=a]> (<[i:=b]> fis)) !! j = Some a.
Proof.
  intros Ha Hb.
  pose proof (lookup_lt_Some _ _ _ Ha) as Hi.
  pose proof (lookup_lt_Some _ _ _ Hb) as Hj.
  split.
  - destruct (decide (i = j)) as [->|Hne].
    + rewrite Ha in Hb. injection Hb as ->.
      apply list_lookup_insert_eq. now rewrite length_insert.
    + rewrite list_lookup_insert_ne by congruence.
      now apply list_lookup_insert_eq.
  - apply list_lookup_insert_eq. now rewrite length_insert.
Qed.

(** X13.  [Swap] of two indexes in range puts each entry in the other's
    place, leaves the others and the length, and done twice gives the
    list back. *)
Theorem Swap_exchanges (fis : modTimeFInfos) (i j : nat) (a b : fileInfo) :
  fis !! i = Some a -> fis !! j = Some b ->
  exists fis' : modTimeFInfos,
    Swap fis i j = Some fis'
    /\ fis' !! i = Some b /\ fis' !! j = Some a
    /\ (forall k : nat, k <> i -> k <> j -> fis' !! k = fis !! k)
    /\ Len fis' = Len fis
    /\ Swap fis' i j = Some fis.
Proof.
  intros Ha Hb. unfold Swap, Len. rewrite Ha, Hb.
  unfold modTimeFInfos in *.
  pose proof (lookup_lt_Some _ _ _ Ha) as Hi.
  pose proof (lookup_lt_Some _ _ _ Hb) as Hj.
  destruct (Swap_lookups fis i j a b Ha Hb) as [Hli Hlj].
  eexists. split; [reflexivity|].
  split; [exact Hli|]. split; [exact Hlj|]. split.
  { intros k Hki Hkj. now rewrite !list_lookup_insert_ne by congruence. }
  split; [unfold Len; now rewrite !length_insert|].
  rewrite Hli, Hlj. f_equal. apply list_eq. intros k.
  destruct (decide (k = j)) as [->|Hkj].
  - rewrite list_lookup_insert_eq; [now rewrite Hb|].
    now rewrite !length_insert.
  - rewrite list_lookup_insert_ne by congruence.
    destruct (decide (k = i)) as [->|Hki].
    + rewrite list_lookup_insert_eq; [now rewrite Ha|].
      now rewrite !length_insert.
    + now rewrite !list_lookup_insert_ne by congruence.
Qed.

(** X14.  After [Swap(i, j)], [Less(i, j)] is what [Less(j, i)] was. *)
Theorem Less_after_Swap (fis fis' : modTimeFInfos) (i j : nat) :
  Swap fis i j = Some fis' -> Less fis' i j = Less fis j i.
Proof.
  intros Hs. unfold Swap in Hs.
  destruct (fis !! j) as [b|] eqn:Hb; [|discriminate].
  destruct (fis !! i) as [a|] eqn:Ha; [|discriminate].
  injection Hs as <-. unfold Less. unfold modTimeFInfos in *.
  destruct (Swap_lookups fis i j a b Ha Hb) as [Hi Hj].
  now rewrite Hi, Hj, Ha, Hb.
Qed.

Lemma Swap_exchanges_witness :
  Swap examples.threeBackups 0 2 ≫= (fun fis' => Swap fis' 0 2)
  = Some examples.threeBackups.
Proof.
  destruct (Swap_exchanges examples.threeBackups 0 2 _ _ eq_refl eq_refl)
    as (fis' & Hs & _ & _ & _ & _ & Hback).
  rewrite Hs. exact Hback.
Defined.

Lemma Less_after_Swap_witness :
  Swap examples.threeBackups 0 2 ≫= (fun fis' => Less fis' 0 2)
  = Some false.
Proof.
  destruct (Swap examples.threeBackups 0 2) as [fis'|] eqn:Hs;
    [|discriminate].
  cbn [mbind option_bind]. rewrite (Less_after_Swap _ _ _ _ Hs).
  reflexivity.
Defined.

Lemma findFilesInDir_readable_witness :
  findFilesInDir "/var/log/app/"
    (fun fPath _ seen => (fPath :: seen, None) : list string * option error)
    [fun _ fi => negb (os.IsDir fi)] examples.dirWorld []
  = (["/var/log/app/app.log.1"%string], None).
Proof.
  rewrite (findFilesInDir_readable "/var/log/app/" _ _ examples.dirWorld []
             (os.mkDir [os.mkFileInfo "app.log.1" 2
                          (time.Unix 1650482430 0) false]
                       (time.Unix 1650482430 0) true));
    reflexivity.
Defined.

End walk_facts.

(** ** Levels of a handler *)

Module handler_facts.
Import handler.

(** X15.  A handler built from a list of levels handles exactly the levels
    of the list; one built from no level handles none. *)
Theorem IsHandling_levels (levels : list Z) (level : Z) :
  IsHandling (NewLvsFormatter levels) level = true <-> In level levels.
Proof.
  unfold IsHandling, NewLvsFormatter. cbn [Levels].
  induction levels as [|l levels IH]; cbn [anyEqual In].
  - split; [discriminate | tauto].
  - destruct (Z.eqb_spec l level) as [->|Hne].
    + tauto.
    + rewrite IH. split; [tauto|]. intros [H|H]; [congruence | exact H].
Qed.

End handler_facts.

(** ** Records: copies and merges *)

Module merge_facts.
Import slog record.

Section any.
Context {any : Type}.
Implicit Types (r : Record any) (k : string) (v : any).
Implicit Types (m data fields : gmap string any).

(** The loop over a map stores its entries over those in place. *)
Lemma rangeInsert_union (src dst : gmap string any) :
  rangeInsert src dst = src ∪ dst.
Proof.
  unfold rangeInsert.
  apply (map_fold_weak_ind (fun acc src => acc = src ∪ dst)).
  - now rewrite (left_id_L ∅ (∪)).
  - intros i x m r' _ ->. apply insert_union_l.
Qed.

Lemma rangeInsert_lookup (src dst : gmap string any) (k : string) :
  rangeInsert src dst !! k
  = match src !! k with Some v => Some v | None => dst !! k end.
Proof.
  rewrite rangeInsert_union, lookup_union.
  destruct (src !! k), (dst !! k); reflexivity.
Qed.

Lemma copyMap_entry (o : option (gmap string any)) (k : string) :
  copyMap o !! k = entry o k.
Proof.
  destruct o as [m|]; cbn.
  - rewrite rangeInsert_lookup, lookup_empty. now destruct (m !! k).
  - apply lookup_empty.
Qed.

Lemma Copy_entry r k :
  entry (Fields (Copy r)) k = entry (Fields r) k
  /\ entry (Data (Copy r)) k = entry (Data r) k
  /\ entry (Extra (Copy r)) k = entry (Extra r) k.
Proof.
  unfold Copy. cbn [Fields Data Extra entry mbind option_bind].
  now rewrite !copyMap_entry.
Qed.

(** X16.  [Copy] gives a record with the same time, level, channel, message
    and caller settings, and with three maps that are never nil and
    hold the entries of the original's. *)
Theorem Copy_keeps_entries r :
  (exists f d e : gmap string any,
      Fields (Copy r) = Some f /\ Data (Copy r) = Some d
      /\ Extra (Copy r) = Some e)
  /\ (forall k,
        entry (Fields (Copy r)) k = entry (Fields r) k
        /\ entry (Data (Copy r)) k = entry (Data r) k
        /\ entry (Extra (Copy r)) k = entry (Extra r) k)
  /\ Time (Copy r) = Time r /\ Level (Copy r) = Level r
  /\ levelName (Copy r) = levelName r /\ Channel (Copy r) = Channel r
  /\ Message (Copy r) = Message r /\ CallerFlag (Copy r) = CallerFlag r
  /\ CallerSkip (Copy r) = CallerSkip r.
Proof.
  split; [do 3 eexists; repeat split|].
  split; [|repeat split].
  intros k. apply Copy_entry.
Qed.

(** X17.  [WithFields] gives a copy whose fields are those of the record with
    the given ones stored over them; data and extra are as in the
    record, and so is all of it when the given map is nil. *)
Theorem WithFields_merges r (given : option (gmap string any)) k :
  entry (Fields (WithFields r given)) k
  = match entry given k with
    | Some v => Some v
    | None => entry (Fields r) k
    end
  /\ entry (Data (WithFields r given)) k = entry (Data r) k
  /\ entry (Extra (WithFields r given)) k = entry (Extra r) k.
Proof.
  destruct (Copy_entry r k) as (Hf & Hd & He).
  unfold WithFields. cbn [Copy Fields].
  destruct given as [fields|]; cbn [setFields Fields Data Extra].
  - split; [|split; assumption].
    cbn [entry mbind option_bind]. now rewrite rangeInsert_lookup, copyMap_entry.
  - split; [|split; assumption]. exact Hf.
Qed.

(** X18.  [WithField] gives a copy that holds the value under the name and
    the other fields of the record. *)
Theorem WithField_stores r (name : string) (val : any) k :
  entry (Fields (WithField r name val)) k
  = if decide (k = name) then Some val else entry (Fields r) k.
Proof.
  unfold WithField, WithFields. cbn [Copy Fields setFields].
  cbn [entry mbind option_bind]. rewrite rangeInsert_lookup, copyMap_entry.
  destruct (decide (k = name)) as [->|Hne].
  - now rewrite lookup_singleton_eq.
  - now rewrite lookup_singleton_ne by congruence.
Qed.

(** X19.  [WithData] gives a copy whose data is the given map and nothing
    of the record's data, even when the given map is nil; fields and
    extra are as in the record. *)
Theorem WithData_replaces r (given : option (gmap string any)) k :
  Data (WithData r given) = given
  /\ entry (Fields (WithData r given)) k = entry (Fields r) k
  /\ entry (Extra (WithData r given)) k = entry (Extra r) k.
Proof.
  unfold WithData. cbn [Copy setData Fields Data Extra entry mbind
    option_bind].
  rewrite !copyMap_entry. repeat split.
Qed.

(** X20.  [AddData], [AddExtra] and [AddFields]: with no map in place the
    given map is taken as it is (a nil one too); with a map in place
    the given entries are stored over it. *)
Theorem AddData_merges r (given : option (gmap string any)) k :
  (Data r = None -> Data (AddData r given) = given)
  /\ (Extra r = None -> Extra (AddExtra r given) = given)
  /\ (Fields r = None -> Fields (AddFields r given) = given)
  /\ (Data r <> None ->
      entry (Data (AddData r given)) k
      = match entry given k with
        | Some v => Some v
        | None => entry (Data r) k
        end)
  /\ (Extra r <> None ->
      entry (Extra (AddExtra r given)) k
      = match entry given k with
        | Some v => Some v
        | None => entry (Extra r) k
        end)
  /\ (Fields r <> None ->
      entry (Fields (AddFields r given)) k
      = match entry given k with
        | Some v => Some v
        | None => entry (Fields r) k
        end).
Proof.
  unfold AddData, AddExtra, AddFields.
  repeat split.
  - now intros ->.
  - now intros ->.
  - now intros ->.
  - intros Hd. destruct (Data r) as [m|] eqn:E; [|congruence].
    destruct given as [d|]; cbn; [|now rewrite E].
    apply rangeInsert_lookup.
  - intros Hd. destruct (Extra r) as [m|] eqn:E; [|congruence].
    destruct given as [d|]; cbn; [|now rewrite E].
    apply rangeInsert_lookup.
  - intros Hd. destruct (Fields r) as [m|] eqn:E; [|congruence].
    destruct given as [d|]; cbn; [|now rewrite E].
    apply rangeInsert_lookup.
Qed.

(** X21.  On a copy, [AddValue] always stores the value: the data of a copy
    is never nil. *)
Theorem AddValue_on_Copy r (t : time.Time) k v :
  entry (Data (AddValue (Copy r) k v)) k = Some v
  /\ entry (Data (AddValue (WithTime r t) k v)) k = Some v
  /\ forall k', k' <> k ->
       entry (Data (AddValue (Copy r) k v)) k' = entry (Data r) k'.
Proof.
  unfold AddValue, WithTime. cbn. repeat split.
  - apply lookup_insert_eq.
  - apply lookup_insert_eq.
  - intros k' Hne. rewrite lookup_insert_ne by congruence.
    apply copyMap_entry.
Qed.

(** X22.  On a record whose data is nil, the first [AddValue] only makes the
    map; a second one stores its value, and the value of the first call
    is not there. *)
Theorem AddValue_twice_on_nil r (k1 k2 : string) (v1 v2 : any) :
  let r2 := AddValue (AddValue (setData r None) k1 v1) k2 v2 in
  entry (Data r2) k2 = Some v2
  /\ (k1 <> k2 -> entry (Data r2) k1 = None).
Proof.
  cbn. split.
  - apply lookup_insert_eq.
  - intros Hne. now rewrite lookup_insert_ne by congruence.
Qed.

(** X23.  [Warnf] hands the record over at [ErrorLevel]: it does what
    [Errorf] does, whatever the levels are, while [Warn] uses
    [WarnLevel]. *)
Theorem Warnf_logs_as_Errorf (ErrorLevel WarnLevel : Z)
    (formatArgsWithSpaces : list any -> string)
    (Sprintf : string -> list any -> string)
    r (format : string) (args : list any) :
  Warnf ErrorLevel Sprintf r format args
  = Errorf ErrorLevel Sprintf r format args
  /\ (Warnf ErrorLevel Sprintf r format args).1 = ErrorLevel
  /\ Level (Warnf ErrorLevel Sprintf r format args).2 = ErrorLevel
  /\ (Warn WarnLevel formatArgsWithSpaces r args).1 = WarnLevel
  /\ Level (Warn WarnLevel formatArgsWithSpaces r args).2 = WarnLevel.
Proof. repeat split. Qed.

End any.

Lemma AddData_merges_witness :
  entry (Data (AddData (any := Z)
                 (mkRecord (time.Unix 0 0) 0 "" "" "" None
                           (Some {[ "user"%string := 1 ]}) None 0 0)
                 (Some {[ "user"%string := 2 ]})))
        "user"%string
  = Some 2.
Proof.
  refine (eq_trans
            (proj1 (proj2 (proj2 (proj2
               (AddData_merges (any := Z)
                  (mkRecord (time.Unix 0 0) 0 "" "" "" None
                            (Some {[ "user"%string := 1 ]}) None 0 0)
                  (Some {[ "user"%string := 2 ]}) "user"%string)))) _) _);
    [discriminate | reflexivity].
Defined.

End merge_facts.

(** ** The timestamp of a record *)

Module stamp_facts.
Import slog strconv stamp.

(** Two lists of digits are the same when the digits are. *)
Ltac same_digits :=
  repeat (apply (f_equal2 cons));
  try reflexivity;
  apply (f_equal digit); Z.div_mod_to_equations; lia.

Lemma digitsFrom_more (rounds : nat) (n : Z) (acc : list ascii) :
  10 <= n ->
  digitsFrom (S rounds) n acc
  = digitsFrom rounds (n / 10) (digit (n mod 10) :: acc).
Proof.
  intros H. cbn [digitsFrom]. destruct (Z.ltb_spec n 10); [lia | reflexivity].
Qed.

Lemma digitsFrom_last (rounds : nat) (n : Z) (acc : list ascii) :
  n < 10 -> digitsFrom (S rounds) n acc = digit (n mod 10) :: acc.
Proof.
  intros H. cbn [digitsFrom]. destruct (Z.ltb_spec n 10); [reflexivity | lia].
Qed.

Lemma digitsFrom_acc (rounds : nat) :
  forall (n : Z) (acc : list ascii),
    digitsFrom rounds n acc = digitsFrom rounds n [] ++ acc.
Proof.
  induction rounds as [|rounds IH]; intros n acc; [reflexivity|].
  cbn [digitsFrom]. destruct (n <? 10); [reflexivity|].
  rewrite (IH _ (_ :: acc)), (IH _ [_]). now rewrite <- app_assoc.
Qed.

(** Less than [10^k] has at most [k] digits. *)
Lemma digitsFrom_length (k : nat) :
  forall (rounds : nat) (n : Z),
    0 <= n < 10 ^ Z.of_nat (S k) ->
    (length (digitsFrom rounds n []) <= S k)%nat.
Proof.
  induction k as [|k IH]; intros rounds n Hn.
  - destruct rounds as [|rounds]; [cbn; lia|].
    rewrite digitsFrom_last by (change (10 ^ Z.of_nat 1) with 10 in Hn; lia).
    cbn. lia.
  - destruct rounds as [|rounds]; [cbn; lia|].
    destruct (Z.lt_ge_cases n 10) as [Hlt|Hge].
    + rewrite digitsFrom_last by lia. cbn. lia.
    + rewrite digitsFrom_more by lia. rewrite digitsFrom_acc.
      rewrite length_app. cbn [length].
      assert (Hq : 0 <= n / 10 < 10 ^ Z.of_nat (S k)).
      { replace (Z.of_nat (S (S k))) with (Z.of_nat (S k) + 1) in Hn by lia.
        rewrite Z.pow_add_r in Hn by lia. change (10 ^ 1) with 10 in Hn.
        split; [apply Z.div_pos; lia|].
        apply Z.div_lt_upper_bound; lia. }
      specialize (IH rounds (n / 10) Hq). lia.
Qed.

(** X24.  Before 1970-01-01 00:16:40 UTC, and not before the epoch, the
    microseconds have fewer than ten digits and [timestamp] panics. *)
Theorem timestamp_panics_near_epoch {any : Type} (r : Record any) :
  0 <= Time_UnixMicro (Time r) < 1000000000 ->
  timestamp r = None.
Proof.
  intros Hr. unfold timestamp, FormatInt10.
  destruct (Z.ltb_spec (Time_UnixMicro (Time r)) 0); [lia|].
  pose proof (digitsFrom_length 8 20 (Time_UnixMicro (Time r))
                ltac:(change (10 ^ Z.of_nat 9) with 1000000000; lia)) as Hl.
  destruct (Nat.ltb_spec (length (digitsFrom 20 (Time_UnixMicro (Time r)) []))
                         10); [reflexivity | lia].
Qed.

Lemma timestamp_panics_near_epoch_witness :
  timestamp (any := Z)
    (mkRecord (time.Unix 0 0) 0 "" "" "" None None None 0 0) = None.
Proof.
  apply timestamp_panics_near_epoch. vm_compute. split; congruence.
Defined.

(** The digits of a number of ten digits. *)
Lemma digitsFrom_ten (rounds : nat) (s : Z) :
  1000000000 <= s < 10000000000 ->
  length (digitsFrom (10 + rounds) s []) = 10%nat
  /\ digitsFrom (10 + rounds) s [] = digitsFrom 20 s [].
Proof.
  intros Hs.
  assert (Hgen : forall f, digitsFrom (10 + f) s []
    = [digit (s / 1000000000 mod 10); digit (s / 100000000 mod 10);
       digit (s / 10000000 mod 10); digit (s / 1000000 mod 10);
       digit (s / 100000 mod 10); digit (s / 10000 mod 10);
       digit (s / 1000 mod 10); digit (s / 100 mod 10);
       digit (s / 10 mod 10); digit (s mod 10)]).
  { intros f. change (10 + f)%nat with (S (S (S (S (S (S (S (S (S (S f)))))))))).
    do 9 (rewrite digitsFrom_more by (Z.div_mod_to_equations; lia)).
    rewrite digitsFrom_last by (Z.div_mod_to_equations; lia).
    same_digits. }
  split.
  - now rewrite Hgen.
  - rewrite Hgen. symmetry. apply (Hgen 10%nat).
Qed.

(** X25.  From 2001-09-09 01:46:40 UTC to 2286-11-20 the seconds have ten
    digits, and [timestamp] is the seconds, a dot, and the microseconds
    in six digits. *)
Theorem timestamp_seconds_dot_micros {any : Type} (r : Record any) :
  1000000000 <= time.Time_Unix (Time r) < 10000000000 ->
  timestamp r
  = Some (string_of_list_ascii
            (FormatInt10 (time.Time_Unix (Time r))
             ++ "."%char
                :: sixDigits (time.Time_Nanosecond (Time r) / 1000))).
Proof.
  intros Hr. unfold timestamp, FormatInt10, Time_UnixMicro,
    time.Time_Unix, time.Time_Nanosecond in *.
  change time.Second with 1000000000 in *.
  set (n := time.unixNano (Time r)) in *.
  destruct (Z.ltb_spec (n / 1000) 0); [Z.div_mod_to_equations; lia|].
  destruct (Z.ltb_spec (n / 1000000000) 0); [lia|].
  assert (Hsix : digitsFrom 20 (n / 1000) []
                 = digitsFrom 14 (n / 1000000000) []
                   ++ sixDigits (n mod 1000000000 / 1000)).
  { do 6 (rewrite digitsFrom_more by (Z.div_mod_to_equations; lia)).
    rewrite digitsFrom_acc. f_equal.
    - f_equal. Z.div_mod_to_equations. lia.
    - unfold sixDigits. cbn [map].
      same_digits. }
  destruct (digitsFrom_ten 4 (n / 1000000000) Hr) as [Hlen Heq].
  change (10 + 4)%nat with 14%nat in *.
  rewrite Hsix, length_app, Hlen. cbn [Nat.ltb Nat.leb Nat.add].
  rewrite take_app_length' by (symmetry; exact Hlen).
  rewrite drop_app_length' by (symmetry; exact Hlen).
  now rewrite Heq.
Qed.

Lemma timestamp_seconds_dot_micros_witness :
  timestamp (any := Z)
    (mkRecord (time.mkTime 1650482430123456789 0) 0 "" "" "" None None None
              0 0)
  = Some "1650482430.123456"%string.
Proof.
  rewrite timestamp_seconds_dot_micros; [reflexivity|].
  vm_compute. split; congruence.
Defined.

End stamp_facts.
